(** * Card lifecycle tracker: journey service, analytics and fan-out

    A shallow embedding of the backend of the card journey tracker:
    - [models/CardJourney.js]   the document schema and its validators,
    - [services/cardService.js] createCard, updateCardStatus, searchCards,
                                getCardById, sanitizeCardData,
    - [services/analyticsService.js] the per-stage bottleneck summary,
    - [config/websocket.js]     the subscriber set and [broadcast].

    Conventions.  Instants are milliseconds since the epoch, as [Z].
    A text is the sequence of its UTF-8 bytes.
    JavaScript numbers that the code only ever combines exactly are
    rationals ([Q]) or integers ([Z]).  An optional JavaScript string
    ([undefined] / [null] / a string) is an [option string].  The document
    store is a finite map keyed by [cardId] (the schema declares the key
    unique); a plain JavaScript object is a finite map from field names. *)

From Stdlib Require Import ZArith QArith Qround List Bool Ascii String Lia Sorted.
From stdpp Require Import gmap strings list fin_maps relations.
Import ListNotations.

Local Open Scope string_scope.
Local Open Scope list_scope.
Local Open Scope Z_scope.

(** ** JavaScript primitives used by the services *)

Module JS.

(** Truthiness of an optional string: [undefined], [null] and the empty
    string are falsy. *)
Definition truthy (v : option string) : bool :=
  match v with
  | Some s => negb (String.eqb s EmptyString)
  | None => false
  end.

(** [Math.round]: nearest integer, ties towards plus infinity. *)
Definition Math_round (x : Q) : Z := Qfloor (x + (1 # 2))%Q.

(** The UTF-16 code units that a byte of UTF-8 text stands for: a byte
    that continues a character counts for nothing, the first byte of a
    four-byte character (a surrogate pair) for two units, every other
    first byte for one. *)
Definition utf16_units (c : ascii) : Z :=
  let n := nat_of_ascii c in
  if (Nat.leb 128 n && Nat.leb n 191)%bool then 0
  else if Nat.leb 240 n then 2 else 1.

(** [s.length]: the number of UTF-16 code units of the text. *)
Fixpoint length (s : string) : Z :=
  match s with
  | EmptyString => 0
  | String c t => utf16_units c + length t
  end.


Definition lower_char (c : ascii) : ascii :=
  let n := nat_of_ascii c in
  if (Nat.leb 65 n && Nat.leb n 90)%bool then ascii_of_nat (n + 32) else c.



Definition byte_is (c : ascii) (n : nat) : bool := Nat.eqb (nat_of_ascii c) n.

(** [s.toLowerCase()] on UTF-8 text, exact in every ASCII character of
    the result: ASCII capitals are lowered, and so are the two characters
    outside ASCII whose lower case holds an ASCII letter, the dotted
    capital I (U+0130, bytes 196 176, which becomes i and the combining
    dot U+0307) and the Kelvin sign (U+212A, bytes 226 132 170, which
    becomes k).  Other characters outside ASCII stay outside ASCII
    whatever their case, and are left as they are. *)
Fixpoint toLowerCase (s : string) : string :=
  match s with
  | EmptyString => EmptyString
  | String c t =>
      match t with
      | String c1 t1 =>
          if (byte_is c 196 && byte_is c1 176)%bool then
            String "i" (String (ascii_of_nat 204) (String (ascii_of_nat 135)
                                                      (toLowerCase t1)))
          else
            match t1 with
            | String c2 t2 =>
                if (byte_is c 226 && byte_is c1 132 && byte_is c2 170)%bool
                then String "k" (toLowerCase t2)
                else String (lower_char c) (toLowerCase t)
            | EmptyString => String (lower_char c) (toLowerCase t)
            end
      | EmptyString => String (lower_char c) EmptyString
      end
  end.

(** [s.startsWith(p)] *)
Definition startsWith (s p : string) : bool := String.prefix p s.

(** [s.includes(p)] *)
Fixpoint includes (s p : string) : bool :=
  if String.prefix p s then true
  else match s with
       | EmptyString => false
       | String _ t => includes t p
       end.

Definition is_digit (c : ascii) : bool :=
  let n := nat_of_ascii c in (Nat.leb 48 n && Nat.leb n 57)%bool.

Fixpoint forall_chars (p : ascii -> bool) (s : string) : bool :=
  match s with
  | EmptyString => true
  | String c t => p c && forall_chars p t
  end.


(** [s.slice(-n)]: the last [n] characters, or all of [s] when it is
    shorter. *)
Definition slice_last (n : nat) (s : string) : string :=
  String.substring (String.length s - n) n s.

(** [s.split(sep)] for a one-character separator. *)
Fixpoint split (sep : ascii) (s : string) : list string :=
  match s with
  | EmptyString => [EmptyString]
  | String c t =>
      if Ascii.eqb c sep then EmptyString :: split sep t
      else match split sep t with
           | [] => [String c EmptyString]
           | p :: ps => String c p :: ps
           end
  end.

(** [parts.join(sep)] *)
Fixpoint join (sep : string) (parts : list string) : string :=
  match parts with
  | [] => EmptyString
  | [p] => p
  | p :: ps => p +:+ sep +:+ join sep ps
  end.

(** [parts.slice(-n)] *)
Definition last_n {A} (n : nat) (l : list A) : list A :=
  skipn (List.length l - n) l.

Definition is_space (c : ascii) : bool :=
  let n := nat_of_ascii c in
  (Nat.eqb n 32 || (Nat.leb 9 n && Nat.leb n 13))%bool.

Fixpoint trimStart (s : string) : string :=
  match s with
  | String c t => if is_space c then trimStart t else s
  | EmptyString => EmptyString
  end.

Fixpoint trimEnd (s : string) : string :=
  match s with
  | EmptyString => EmptyString
  | String c t =>
      match trimEnd t with
      | EmptyString => if is_space c then EmptyString else String c EmptyString
      | t' => String c t'
      end
  end.

(** [s.trim()] (ASCII white space). *)
Definition trim (s : string) : string := trimEnd (trimStart s).

(** A JavaScript number, as far as the services compute with one: a
    rational value or NaN. *)
Inductive Number :=
| NaN
| Finite (q : Q).

Fixpoint digitsValue (acc : Z) (s : string) : Z :=
  match s with
  | EmptyString => acc
  | String c t => digitsValue (10 * acc + Z.of_nat (nat_of_ascii c - 48)) t
  end.

(** The number value of a string, for the decimal literals without an
    exponent: white space around the literal is dropped, the empty text
    is 0, a run of digits is its value, and a text that is no numeric
    literal is NaN.  (Signs, fractions, exponents, the prefixed literals
    and Infinity are not read; the sources convert no such text.) *)
Definition StringToNumber (s : string) : Number :=
  let t := trim s in
  if String.eqb t EmptyString then Finite 0
  else if forall_chars is_digit t then Finite (inject_Z (digitsValue 0 t))
  else NaN.

(** [a * b] *)
Definition times (a b : Number) : Number :=
  match a, b with
  | Finite x, Finite y => Finite (x * y)
  | _, _ => NaN
  end.

(** [Math.floor(x)] *)
Definition Math_floor (x : Number) : Number :=
  match x with
  | Finite q => Finite (inject_Z (Qfloor q))
  | NaN => NaN
  end.

End JS.

(** ** The journey document (models/CardJourney.js) *)

Inductive Scalar :=
| Undefined
| Str (s : string)
| Num (n : Z)
| Date (ms : Z).

Definition ofOption (v : option string) : Scalar :=
  match v with Some s => Str s | None => Undefined end.

(** The [Mixed] maps ([eventData]) and the payloads of broadcasts and SMS
    templates: field name and value, in insertion order. *)
Definition Payload := list (string * Scalar).

Record JourneyEvent := mkEvent {
  stage : string;
  timestamp : Z;
  source : string;
  location : option string;
  operatorId : option string;
  batchId : option string;
  trackingId : option string;
  previousStage : option string;
  evFailureReason : option string;
  durationMinutes : option Z;
  eventData : Payload
}.

Record Metadata := mkMeta { region : string; createdBy : string }.

Record CardJourney := mkJourney {
  cardId : string;
  customerId : string;
  customerName : option string;
  mobileNumber : option string;        (* encrypted in the service layer *)
  panMasked : string;
  applicationId : option string;
  currentStatus : string;
  priority : string;
  address : option string;             (* encrypted in the service layer *)
  estimatedDelivery : Z;
  actualDelivery : option Z;
  failureReason : option string;
  retryCount : Z;
  journey : list JourneyEvent;
  metadata : Metadata;
  createdAt : Z;
  updatedAt : Z
}.

(** The [enum] of [journeyEventSchema.stage] and of
    [cardJourneySchema.currentStatus] (the two lists are the same). *)
Definition stageEnum : list string :=
  [ "APPROVED"; "QUEUED_FOR_EMBOSSING"; "IN_EMBOSSING"; "EMBOSSING_COMPLETE";
    "EMBOSSING_FAILED"; "DISPATCHED"; "IN_TRANSIT"; "OUT_FOR_DELIVERY";
    "DELIVERED"; "DELIVERY_FAILED"; "RETURNED"; "DESTROYED" ].

Definition priorityEnum : list string :=
  [ "STANDARD"; "EXPRESS"; "URGENT" ].

Definition in_enum (s : string) (enum : list string) : bool :=
  existsb (String.eqb s) enum.

Definition nonempty (s : string) : bool := negb (String.eqb s EmptyString).

(** The validators of [journeyEventSchema]: [stage] is required and must
    be in the enum, [source] is required. *)
Definition validateEvent (e : JourneyEvent) : bool :=
  nonempty (stage e) && in_enum (stage e) stageEnum && nonempty (source e).

(** The validators of [cardJourneySchema], run by [save()] before the
    document is written: required paths, the two enums, and the
    validators of every element of [journey]. *)
Definition validateJourney (j : CardJourney) : bool :=
  nonempty (cardId j) && nonempty (customerId j) && JS.truthy (mobileNumber j)
  && nonempty (panMasked j)
  && nonempty (currentStatus j) && in_enum (currentStatus j) stageEnum
  && in_enum (priority j) priorityEnum
  && forallb validateEvent (journey j).

(** ** Plain JavaScript objects and side effects *)

Inductive JsValue :=
| VNull
| VScalar (s : Scalar)
| VEvents (es : list JourneyEvent)
| VMetadata (m : Metadata).

(** What the service does besides writing the store, in program order. *)
Inductive Effect :=
| Broadcast (type : string) (data : Payload)
| SendSMS (customer template : string) (data : Payload)
| TriggerAnalysis.

Record World := mkWorld {
  db : gmap string CardJourney;
  effects : list Effect
}.

Inductive ServiceError :=
| MissingCardFields      (* 'Missing required fields: cardId, customerId, ...' *)
| MissingStatusFields    (* 'Missing required fields: status, source' *)
| ValidationFailed       (* the ValidationError raised by save() *)
| CardIdExists           (* 'Card ID already exists' (duplicate key 11000) *)
| CardNotFound           (* 'Card not found' *)
| QueryTooShort          (* 'Search query must be at least 3 characters' *)
| InvalidRegExp.         (* the SyntaxError thrown by new RegExp *)

Inductive Result (A : Type) :=
| Ok (a : A)
| Err (e : ServiceError).
Arguments Ok {A} a.
Arguments Err {A} e.

(** The body parsed from the request of [createCard]. *)
Record CardData := mkCardData {
  cd_cardId : option string;
  cd_customerId : option string;
  cd_customerName : option string;
  cd_mobileNumber : option string;
  cd_panMasked : option string;
  cd_applicationId : option string;
  cd_priority : option string;
  cd_address : option string;
  cd_message : option string
}.

(** The body parsed from the request of [updateCardStatus]. *)
Record StatusData := mkStatusData {
  sd_status : option string;
  sd_source : option string;
  sd_location : option string;
  sd_operatorId : option string;
  sd_batchId : option string;
  sd_trackingId : option string;
  sd_failureReason : option string;
  sd_eventData : option Payload
}.

Definition optField (k : string) (v : option string) : list (string * JsValue) :=
  match v with Some s => [(k, VScalar (Str s))] | None => [] end.

Definition optDate (k : string) (v : option Z) : list (string * JsValue) :=
  match v with Some d => [(k, VScalar (Date d))] | None => [] end.

(** [doc.toObject()]: the paths that hold a value; [address] is stored as
    [null] when the card has none. *)
Definition toObject (j : CardJourney) : gmap string JsValue :=
  list_to_map
    ([ ("cardId", VScalar (Str (cardId j)));
       ("customerId", VScalar (Str (customerId j))) ]
     ++ optField "customerName" (customerName j)
     ++ optField "mobileNumber" (mobileNumber j)
     ++ [ ("panMasked", VScalar (Str (panMasked j))) ]
     ++ optField "applicationId" (applicationId j)
     ++ [ ("currentStatus", VScalar (Str (currentStatus j)));
          ("priority", VScalar (Str (priority j)));
          ("address", match address j with
                      | Some a => VScalar (Str a) | None => VNull end);
          ("estimatedDelivery", VScalar (Date (estimatedDelivery j))) ]
     ++ optDate "actualDelivery" (actualDelivery j)
     ++ optField "failureReason" (failureReason j)
     ++ [ ("retryCount", VScalar (Num (retryCount j)));
          ("journey", VEvents (journey j));
          ("metadata", VMetadata (metadata j));
          ("createdAt", VScalar (Date (createdAt j)));
          ("updatedAt", VScalar (Date (updatedAt j))) ]).

(** ** services/cardService.js *)

Definition majorCities : list (string * string) :=
  [ ("mumbai", "Mumbai"); ("delhi", "Delhi"); ("bangalore", "Bangalore");
    ("chennai", "Chennai"); ("hyderabad", "Hyderabad"); ("pune", "Pune");
    ("kolkata", "Kolkata") ].

Definition extractRegionFromAddress (address : option string) : string :=
  if negb (JS.truthy address) then "Unknown"
  else
    let addressLower := JS.toLowerCase (default EmptyString address) in
    match List.find (fun kv => JS.includes addressLower (fst kv)) majorCities with
    | Some kv => snd kv
    | None => "Other"
    end.

Definition tierMultipliers : list (string * Q) :=
  [ ("Mumbai", 1); ("Delhi", 1); ("Bangalore", 11 # 10); ("Chennai", 11 # 10);
    ("Hyderabad", 11 # 10); ("Pune", 12 # 10); ("Kolkata", 12 # 10) ]%Q.

Definition getLocationMultiplier (region : string) : Q :=
  match List.find (fun kv => String.eqb (fst kv) region) tierMultipliers with
  | Some kv => snd kv
  | None => (15 # 10)%Q
  end.

(** The time zone of the server: the offset of local time from UTC at a
    UTC instant, and the offset that applies to a local wall-clock time
    (the two differ around a daylight-saving change), in milliseconds. *)
Record TimeZone := mkTimeZone {
  offsetAtUTC : Z -> Z;
  offsetAtLocal : Z -> Z
}.

(** The integer a number is cut to when it is used as a field of a
    date: its fraction is dropped (rounding towards zero). *)
Definition truncate (x : Q) : Z :=
  if Qle_bool 0 x then Qfloor x else Qceiling x.

(** [date.setHours(date.getHours() + hours)]: the hour field of the
    local wall-clock time is replaced by the sum cut to an integer, and
    the wall-clock time so obtained is read back as a UTC instant. *)
Definition addLocalHours (tz : TimeZone) (t : Z) (hours : Q) : Z :=
  let local := t + offsetAtUTC tz t in
  let getHours := (local / 3600000) mod 24 in
  let local' :=
    local + (truncate (inject_Z getHours + hours) - getHours) * 3600000 in
  local' - offsetAtLocal tz local'.

Definition calculateEstimatedDelivery (tz : TimeZone) (now : Z) (priority : string)
    (address : option string) : Z :=
  let baseHours :=
    if String.eqb priority "EXPRESS" then 72
    else if String.eqb priority "URGENT" then 48 else 96 in
  let region := extractRegionFromAddress address in
  let locationMultiplier := getLocationMultiplier region in
  addLocalHours tz now (inject_Z baseHours * locationMultiplier).

Definition last_event (j : CardJourney) : option JourneyEvent :=
  List.last (List.map Some (journey j)) None.

Section Service.

(** The time zone the server runs in. *)
Variable tz : TimeZone.

(** [encrypt] and [decrypt] of utils/encryption.js on non-empty text
    (AES-256-CBC of Node's crypto module with the initialisation vector
    drawn for the call); [decrypt] yields [None] where it throws. *)
Variable encrypt : string -> string.
Variable decrypt : string -> option string.

(** [new RegExp(q, 'i')]: nothing where the constructor throws a
    SyntaxError because [q] is not a regular expression, and otherwise
    the test that the store applies to a text field. *)
Variable regExp : string -> option (string -> bool).

Definition mobileDisplayOf (m : string) : string :=
  match decrypt m with
  | Some decrypted => "+91-****-**" +:+ JS.slice_last 4 decrypted
  | None => "+91-****-****"
  end.

Definition addressDisplayOf (a : string) : string :=
  match decrypt a with
  | Some decrypted =>
      let parts := JS.split "," decrypted in
      if (1 <? List.length parts)%nat
      then JS.trim (JS.join "," (JS.last_n 2 parts))
      else "Address on file"
  | None => "Address on file"
  end.

Definition sanitizeCardData (cardJourney : CardJourney) : gmap string JsValue :=
  let sanitized := toObject cardJourney in
  let sanitized := delete "mobileNumber" sanitized in
  let sanitized := delete "address" sanitized in
  let sanitized :=
    if JS.truthy (mobileNumber cardJourney)
    then <["mobileDisplay" :=
             VScalar (Str (mobileDisplayOf (default EmptyString (mobileNumber cardJourney))))]>
           sanitized
    else sanitized in
  if JS.truthy (address cardJourney)
  then <["addressDisplay" :=
           VScalar (Str (addressDisplayOf (default EmptyString (address cardJourney))))]>
         sanitized
  else sanitized.

(** The document [new CardJourney({...})] of [createCard], with the
    schema defaults ([retryCount], the event's [timestamp], the
    [timestamps] option) filled in. *)
Definition newCardJourney (now : Z) (cardData : CardData) : CardJourney :=
  let priority := default "STANDARD" (cd_priority cardData) in
  let address := cd_address cardData in
  {| cardId := default EmptyString (cd_cardId cardData);
     customerId := default EmptyString (cd_customerId cardData);
     customerName := cd_customerName cardData;
     mobileNumber := Some (encrypt (default EmptyString (cd_mobileNumber cardData)));
     panMasked := default EmptyString (cd_panMasked cardData);
     applicationId := cd_applicationId cardData;
     currentStatus := "USER_CREATED";
     priority := priority;
     address := if JS.truthy address
                then Some (encrypt (default EmptyString address)) else None;
     estimatedDelivery := calculateEstimatedDelivery tz now priority address;
     actualDelivery := None;
     failureReason := None;
     retryCount := 0;
     journey :=
       [ {| stage := "USER_CREATED";
            timestamp := now;
            source := "card_management_service";
            location := Some "System";
            operatorId := Some "AUTO_APPROVAL";
            batchId := None;
            trackingId := None;
            previousStage := None;
            evFailureReason := None;
            durationMinutes := None;
            eventData := [ ("applicationId", ofOption (cd_applicationId cardData));
                           ("priority", Str priority);
                           ("message", ofOption (cd_message cardData)) ] |} ];
     metadata := {| region := extractRegionFromAddress address;
                    createdBy := "system" |};
     createdAt := now;
     updatedAt := now |}.

Definition createCard (now : Z) (w : World) (cardData : CardData)
    : World * Result (gmap string JsValue) :=
  if negb (JS.truthy (cd_cardId cardData) && JS.truthy (cd_customerId cardData)
           && JS.truthy (cd_mobileNumber cardData) && JS.truthy (cd_panMasked cardData))
  then (w, Err MissingCardFields)
  else
    let cardJourney := newCardJourney now cardData in
    (* await cardJourney.save() *)
    if negb (validateJourney cardJourney) then (w, Err ValidationFailed)
    else
      match db w !! cardId cardJourney with
      | Some _ => (w, Err CardIdExists)
      | None =>
          let w' :=
            {| db := <[cardId cardJourney := cardJourney]> (db w);
               effects := effects w ++
                 [ Broadcast "card_created"
                     [ ("cardId", Str (cardId cardJourney));
                       ("status", Str (currentStatus cardJourney));
                       ("priority", Str (priority cardJourney));
                       ("customerName", ofOption (customerName cardJourney)) ];
                   SendSMS (customerId cardJourney) "CARD_APPROVED"
                     [ ("cardId", Str (cardId cardJourney));
                       ("customerName", ofOption (customerName cardJourney));
                       ("estimatedDelivery", Date (estimatedDelivery cardJourney)) ] ] |} in
          (w', Ok (sanitizeCardData cardJourney))
      end.

(** The event built by [updateCardStatus]; the duration is measured
    from the last recorded event and written on the new one. *)
Definition newEventOf (now : Z) (cardJourney : CardJourney)
    (status source : string) (statusData : StatusData) : JourneyEvent :=
  let previousStatus := currentStatus cardJourney in
  let lastEvent := last_event cardJourney in
  let durationMinutes :=
    match lastEvent with
    | Some e =>
        let duration := now - timestamp e in
        Some (JS.Math_round (inject_Z duration / inject_Z (1000 * 60)))
    | None => None
    end in
  {| stage := status;
     timestamp := now;
     source := source;
     location := sd_location statusData;
     operatorId := sd_operatorId statusData;
     batchId := sd_batchId statusData;
     trackingId := sd_trackingId statusData;
     previousStage := Some previousStatus;
     evFailureReason := sd_failureReason statusData;
     durationMinutes := durationMinutes;
     eventData := default [] (sd_eventData statusData) |}.

(** [findOneAndUpdate({cardId}, updateData, {new: true})] with the
    [updateData] of [updateCardStatus]: the status is set and the event
    pushed in one write; update validators are not requested. *)
Definition applyUpdateData (now : Z) (doc : CardJourney)
    (status : string) (newEvent : JourneyEvent)
    (failureReason' : option string) : CardJourney :=
  {| cardId := cardId doc;
     customerId := customerId doc;
     customerName := customerName doc;
     mobileNumber := mobileNumber doc;
     panMasked := panMasked doc;
     applicationId := applicationId doc;
     currentStatus := status;
     priority := priority doc;
     address := address doc;
     estimatedDelivery := estimatedDelivery doc;
     actualDelivery :=
       if String.eqb status "DELIVERED" then Some now else actualDelivery doc;
     failureReason :=
       if JS.truthy failureReason' then failureReason' else failureReason doc;
     retryCount :=
       if JS.truthy failureReason' then retryCount doc + 1 else retryCount doc;
     journey := journey doc ++ [newEvent];
     metadata := metadata doc;
     createdAt := createdAt doc;
     updatedAt := now |}.

Definition gt480 (d : option Z) : bool :=
  match d with Some m => 480 <? m | None => false end.

Definition updateCardStatus (now : Z) (w : World) (cardId' : string)
    (statusData : StatusData) : World * Result (gmap string JsValue) :=
  if negb (JS.truthy (sd_status statusData)) || negb (JS.truthy (sd_source statusData))
  then (w, Err MissingStatusFields)
  else
    let status := default EmptyString (sd_status statusData) in
    let source := default EmptyString (sd_source statusData) in
    match db w !! cardId' with
    | None => (w, Err CardNotFound)
    | Some cardJourney =>
        let previousStatus := currentStatus cardJourney in
        let newEvent := newEventOf now cardJourney status source statusData in
        let failureReason' := sd_failureReason statusData in
        let updatedCard :=
          applyUpdateData now cardJourney status newEvent failureReason' in
        let w' :=
          {| db := <[cardId' := updatedCard]> (db w);
             effects := effects w ++
               [ Broadcast "status_updated"
                   [ ("cardId", Str cardId');
                     ("previousStatus", Str previousStatus);
                     ("newStatus", Str status);
                     ("timestamp", Date now);
                     ("location", ofOption (sd_location statusData));
                     ("failureReason", ofOption failureReason') ];
                 SendSMS (customerId cardJourney) "CARD_STATUS_UPDATE"
                   [ ("cardId", Str cardId');
                     ("newStatus", Str status);
                     ("location",
                      Str (if JS.truthy (sd_location statusData)
                           then default EmptyString (sd_location statusData)
                           else "Processing Center")) ] ]
               ++ (if JS.includes status "FAILED"
                      || gt480 (durationMinutes newEvent)
                   then [TriggerAnalysis] else []) |} in
        (w', Ok (sanitizeCardData updatedCard))
    end.


(** *** searchCards *)









Definition documents (w : World) : list CardJourney :=
  List.map snd (map_to_list (db w)).



End Service.

(** ** services/analyticsService.js: the bottleneck summary of a stage *)

Module Analytics.

Inductive Severity := low | medium | high | critical.

Definition Qgtb (a b : Q) : bool := negb (Qle_bool a b).

(** The [$round] of the aggregation language: ties go to the even
    neighbour. *)
Definition round_half_even (x : Q) : Z :=
  let f := Qfloor x in
  let r := (x - inject_Z f)%Q in
  if Qgtb r (1 # 2) then f + 1
  else if Qgtb (1 # 2) r then f
  else if Z.even f then f else f + 1.

(** [$round: [x, 1]] *)
Definition round1 (x : Q) : Q :=
  (inject_Z (round_half_even (x * 10)) / 10)%Q.

Definition sumOf (l : list Z) : Z := fold_right Z.add 0 l.
Definition maxOf (l : list Z) : Z := fold_right Z.max (hd 0 l) l.
Definition minOf (l : list Z) : Z := fold_right Z.min (hd 0 l) l.

(** The [$group] stage: one group per stage, its durations in the order
    the events are met. *)
Fixpoint pushDuration (stage' : string) (d : Z) (groups : list (string * list Z))
    : list (string * list Z) :=
  match groups with
  | [] => [(stage', [d])]
  | (s, ds) :: t =>
      if String.eqb s stage' then (s, ds ++ [d]) :: t
      else (s, ds) :: pushDuration stage' d t
  end.

(** [$match createdAt >= sevenDaysAgo], [$unwind "$journey"] and the
    [$match] on a recorded, positive [durationMinutes]. *)
Definition timedEvents (sevenDaysAgo : Z) (docs : list CardJourney)
    : list (string * Z) :=
  flat_map
    (fun doc =>
       if sevenDaysAgo <=? createdAt doc then
         flat_map (fun e => match durationMinutes e with
                            | Some d => if 0 <? d then [(stage e, d)] else []
                            | None => []
                            end) (journey doc)
       else [])
    docs.

Definition groupByStage (events : list (string * Z)) : list (string * list Z) :=
  fold_left (fun groups e => pushDuration (fst e) (snd e) groups) events [].

Fixpoint insertAsc (x : Z) (l : list Z) : list Z :=
  match l with
  | [] => [x]
  | y :: t => if x <=? y then x :: l else y :: insertAsc x t
  end.

(** [$sortArray: { input: ..., sortBy: 1 }] *)
Definition sortAsc (l : list Z) : list Z := fold_right insertAsc [] l.

(** The three-argument [$slice] of the aggregation language: the
    position has to be an integer (a negative one counts from the end of
    the array) and the number of elements a positive integer; with any
    other argument the expression, and with it the aggregation, fails. *)
Definition slice (arr : list Z) (position : JS.Number) (n : Z) : option (list Z) :=
  match position with
  | JS.NaN => None
  | JS.Finite q =>
      if Qeq_bool q (inject_Z (Qfloor q)) && (0 <? n) then
        let p := Qfloor q in
        let start :=
          if p <? 0 then Z.max 0 (Z.of_nat (List.length arr) + p) else p in
        Some (firstn (Z.to_nat n) (skipn (Z.to_nat start) arr))
      else None
  end.

(** The position in the pipeline literal, [Math.floor("$count" * 0.95)]:
    JavaScript computes it when the literal is built, from the text
    "$count" and not from the count of a group. *)
Definition p95Position : JS.Number :=
  JS.Math_floor (JS.times (JS.StringToNumber "$count") (JS.Finite (95 # 100))).

Record StageAnalysis := mkStageAnalysis {
  sa_stage : string;
  count : Z;
  avgDuration : Z;
  maxDuration : Z;
  minDuration : Z;
  p95Duration : option Z;
  delayedCount : Z;
  delayPercentage : Q;
  severity : Severity
}.

Definition delayedCountOf (durations : list Z) : Z :=
  Z.of_nat (List.length (List.filter (fun d => 480 <? d) durations)).

(** The [$switch] on [delayedCount / count]. *)
Definition severityOf (delayedCount' count' : Z) : Severity :=
  let ratio := (inject_Z delayedCount' / inject_Z count')%Q in
  if Qgtb ratio (3 # 10) then critical
  else if Qgtb ratio (2 # 10) then high
  else if Qgtb ratio (1 # 10) then medium
  else low.

(** What [aggregate()] gives: the rows, or the error of the store. *)
Inductive Aggregation (A : Type) :=
| Rows (rows : A)
| Failed.
Arguments Rows {A} rows.
Arguments Failed {A}.

(** The stages of the pipeline that follow [$group], for one group: the
    minimum sample size, the two [$project]s and the filter on the
    rounded mean.  A group below the minimum sample size never reaches
    the projections. *)
Definition analyzeGroup (g : string * list Z) : Aggregation (option StageAnalysis) :=
  let durations := snd g in
  let count' := Z.of_nat (List.length durations) in
  if negb (5 <=? count') then Rows None
  else
    match slice (sortAsc durations) p95Position 1 with
    | None => Failed
    | Some sortedDurations =>
        let avg := round_half_even (inject_Z (sumOf durations) / inject_Z count')%Q in
        let delayed := delayedCountOf durations in
        let sa :=
          {| sa_stage := fst g;
             count := count';
             avgDuration := avg;
             maxDuration := maxOf durations;
             minDuration := minOf durations;
             p95Duration := List.head sortedDurations;
             delayedCount := delayed;
             delayPercentage :=
               round1 ((inject_Z delayed / inject_Z count') * 100)%Q;
             severity := severityOf delayed count' |} in
        Rows (if 30 <? avg then Some sa else None)
    end.

Definition calculateMedian (stageData : StageAnalysis) : Z :=
  JS.Math_round (inject_Z (minDuration stageData + maxDuration stageData) / 2)%Q.

(** The fields of the record upserted per (stage, analysis day). *)
Record BottleneckSummary := mkSummary {
  bs_stage : string;
  analysisDate : Z;
  avgDurationMinutes : Z;
  p95DurationMinutes : option Z;
  bs_delayPercentage : Q;
  affectedCount : Z;
  bs_severity : Severity;
  totalSampleSize : Z;
  medianDurationMinutes : Z;
  metaMaxDuration : Z;
  metaMinDuration : Z
}.

Definition summaryOf (today : Z) (sa : StageAnalysis) : BottleneckSummary :=
  {| bs_stage := sa_stage sa;
     analysisDate := today;
     avgDurationMinutes := avgDuration sa;
     p95DurationMinutes := p95Duration sa;
     bs_delayPercentage := delayPercentage sa;
     affectedCount := count sa;
     bs_severity := severity sa;
     totalSampleSize := count sa;
     medianDurationMinutes := calculateMedian sa;
     metaMaxDuration := maxDuration sa;
     metaMinDuration := minDuration sa |}.

(** The pipeline over all the groups: it fails as soon as one group
    fails. *)
Fixpoint aggregateGroups (groups : list (string * list Z))
    : Aggregation (list StageAnalysis) :=
  match groups with
  | [] => Rows []
  | g :: rest =>
      match analyzeGroup g, aggregateGroups rest with
      | Rows (Some sa), Rows rows => Rows (sa :: rows)
      | Rows None, Rows rows => Rows rows
      | _, _ => Failed
      end
  end.

Definition isCritical (sa : StageAnalysis) : bool :=
  match severity sa with critical => true | _ => false end.

(** One run of [analyzeBottlenecks]: the summaries upserted, keyed by
    stage (the analysis day is the same for all of them), and the
    broadcast that ends the run; or the error of the aggregation, which
    is logged and thrown again before anything is written.  The order in
    which [$sort] leaves the rows does not show in either. *)
Definition analyzeBottlenecks (today sevenDaysAgo : Z) (docs : list CardJourney)
    : Aggregation (gmap string BottleneckSummary * Effect) :=
  match aggregateGroups (groupByStage (timedEvents sevenDaysAgo docs)) with
  | Failed => Failed
  | Rows stageAnalysis =>
      Rows (list_to_map
              (List.map (fun sa => (sa_stage sa, summaryOf today sa)) stageAnalysis),
            Broadcast "bottleneck_analysis_complete"
              [ ("analysisDate", Date today);
                ("stagesAnalyzed", Num (Z.of_nat (List.length stageAnalysis)));
                ("criticalStages",
                 Num (Z.of_nat (List.length (List.filter isCritical stageAnalysis)))) ])
  end.

(** *** Reference statistics, as the specification words them *)

(** The median of the sorted sample: the middle element, or the mean of
    the two middle elements of a sample of even size. *)
Definition spec_median (durations : list Z) : Q :=
  let sorted := sortAsc durations in
  let n := List.length sorted in
  let lower := nth (n / 2 - 1)%nat sorted 0 in
  let upper := nth (n / 2)%nat sorted 0 in
  if Nat.even n then (inject_Z (lower + upper) / 2)%Q else inject_Z upper.

End Analytics.

(** ** config/websocket.js: the subscriber set *)

Module Fanout.

Inductive ReadyState := CONNECTING | OPEN | CLOSING | CLOSED.

Definition is_open (s : ReadyState) : bool :=
  match s with OPEN => true | _ => false end.

(** A connection as [broadcast] sees it: its [readyState] and whether
    [send] throws. *)
Record Socket := mkSocket { readyState : ReadyState; sendThrows : bool }.

Definition isOpen (sockets : nat -> Socket) (h : nat) : bool :=
  is_open (readyState (sockets h)).

Definition throws (sockets : nat -> Socket) (h : nat) : bool :=
  sendThrows (sockets h).

(** The object handed to [JSON.stringify]. *)
Record Message := mkMessage {
  msgType : string;
  msgData : Payload;
  msgTimestamp : Z
}.

Record Outcome := mkOutcome {
  connectedClients : gset nat;
  sent : list (nat * Message);
  sentCount : nat
}.

(** The body of the [forEach] of [broadcast] for one client. *)
Definition visit (sockets : nat -> Socket) (message : Message)
    (acc : Outcome) (client : nat) : Outcome :=
  if is_open (readyState (sockets client)) then
    if sendThrows (sockets client)
    then {| connectedClients := connectedClients acc ∖ {[client]};
            sent := sent acc;
            sentCount := sentCount acc |}
    else {| connectedClients := connectedClients acc;
            sent := sent acc ++ [(client, message)];
            sentCount := S (sentCount acc) |}
  else acc.

Definition broadcast (sockets : nat -> Socket) (now : Z)
    (clients : gset nat) (type : string) (data : Payload) : Outcome :=
  let message := {| msgType := type; msgData := data; msgTimestamp := now |} in
  fold_left (visit sockets message) (elements clients)
    {| connectedClients := clients; sent := []; sentCount := 0 |}.

(** The periodic clean-up installed by [initializeWebSocket]. *)
Definition sweep (sockets : nat -> Socket) (clients : gset nat) : gset nat :=
  fold_left
    (fun acc client =>
       if is_open (readyState (sockets client)) then acc else acc ∖ {[client]})
    (elements clients) clients.

End Fanout.

(** ** scripts/seedData.js: the generated journeys *)

Module Seed.

Definition withTimestamp (t : Z) (e : JourneyEvent) : JourneyEvent :=
  {| stage := stage e; timestamp := t; source := source e;
     location := location e; operatorId := operatorId e;
     batchId := batchId e; trackingId := trackingId e;
     previousStage := previousStage e;
     evFailureReason := evFailureReason e;
     durationMinutes := durationMinutes e; eventData := eventData e |}.

Definition withDuration (d : Z) (e : JourneyEvent) : JourneyEvent :=
  {| stage := stage e; timestamp := timestamp e; source := source e;
     location := location e; operatorId := operatorId e;
     batchId := batchId e; trackingId := trackingId e;
     previousStage := previousStage e;
     evFailureReason := evFailureReason e;
     durationMinutes := Some d; eventData := eventData e |}.

(** [prevEvent.durationMinutes = Math.round(duration)] on
    [events[index - 1]], the last event generated so far. *)
Fixpoint backfill (currentTime : Z) (events : list JourneyEvent) : list JourneyEvent :=
  match events with
  | [] => []
  | [prevEvent] =>
      let duration := (inject_Z (currentTime - timestamp prevEvent)
                       / inject_Z (1000 * 60))%Q in
      [withDuration (JS.Math_round duration) prevEvent]
  | e :: rest => e :: backfill currentTime rest
  end.

(** The loop of [generateJourneyEvents] over the stages.  Each stage
    comes with the event literal built for it (its descriptive fields
    are drawn at random by the script) and with the delay drawn for it
    by [getStageDelay], in milliseconds. *)
Fixpoint generate (events : list JourneyEvent) (currentTime : Z)
    (stages : list (JourneyEvent * Z)) : list JourneyEvent :=
  match stages with
  | [] => events
  | (event, delay) :: rest =>
      let event := withTimestamp currentTime event in
      generate (backfill currentTime events ++ [event]) (currentTime + delay) rest
  end.

Definition generateJourneyEvents (baseTime : Z) (stages : list (JourneyEvent * Z))
    : list JourneyEvent :=
  generate [] baseTime stages.

End Seed.

(** ** The stage table of the specification *)

(** Modelled from the spec: the reachability table of the journey state
    machine (section 4.1), which the repository does not contain, written
    with the stage names of the schema: the happy path from [APPROVED] to
    [DELIVERED], the embossing failure with its retry, the delivery
    failure with its retry or return, and the terminal stages. *)
Definition transitionTable (from : string) : list string :=
  if String.eqb from "APPROVED" then ["QUEUED_FOR_EMBOSSING"]
  else if String.eqb from "QUEUED_FOR_EMBOSSING" then ["IN_EMBOSSING"]
  else if String.eqb from "IN_EMBOSSING" then ["EMBOSSING_COMPLETE"; "EMBOSSING_FAILED"]
  else if String.eqb from "EMBOSSING_FAILED" then ["QUEUED_FOR_EMBOSSING"]
  else if String.eqb from "EMBOSSING_COMPLETE" then ["DISPATCHED"]
  else if String.eqb from "DISPATCHED" then ["IN_TRANSIT"]
  else if String.eqb from "IN_TRANSIT" then ["OUT_FOR_DELIVERY"]
  else if String.eqb from "OUT_FOR_DELIVERY" then ["DELIVERED"; "DELIVERY_FAILED"]
  else if String.eqb from "DELIVERY_FAILED" then ["OUT_FOR_DELIVERY"; "RETURNED"]
  else if String.eqb from "RETURNED" then ["DESTROYED"]
  else [].

Definition reachable (from target : string) : bool :=
  in_enum target (transitionTable from).

(** The failure stages. *)
Definition isFailureStage (s : string) : bool :=
  String.eqb s "EMBOSSING_FAILED" || String.eqb s "DELIVERY_FAILED".

(** ** Runs of the service *)

(** One successful call of [createCard] or of [updateCardStatus]. *)
Inductive ServiceStep (tz : TimeZone) (encrypt : string -> string)
    (decrypt : string -> option string)
    : World -> World -> Prop :=
| StepCreate now w cardData w' out :
    createCard tz encrypt decrypt now w cardData = (w', Ok out) ->
    ServiceStep tz encrypt decrypt w w'
| StepAdvance now w cardId' statusData w' out :
    updateCardStatus decrypt now w cardId' statusData = (w', Ok out) ->
    ServiceStep tz encrypt decrypt w w'.

(** A property of every stored journey. *)
Definition AllJourneys (P : CardJourney -> Prop) (w : World) : Prop :=
  forall k j, db w !! k = Some j -> P j.

(** The status agrees with the last recorded event (so there is one). *)
Definition statusIsLastStage (j : CardJourney) : Prop :=
  journey j <> [] /\ option_map stage (last_event j) = Some (currentStatus j).

Definition countEvents (p : JourneyEvent -> bool) (j : CardJourney) : Z :=
  Z.of_nat (List.length (List.filter p (journey j))).

(** The retry counter agrees with the events that carry a failure
    reason. *)
Definition retryCountsReasons (j : CardJourney) : Prop :=
  retryCount j = countEvents (fun e => JS.truthy (evFailureReason e)) j.


(** ** What the responses show, and what a query selects *)



Definition is_alnum (c : ascii) : bool :=
  let n := nat_of_ascii c in
  (JS.is_digit c || (Nat.leb 65 n && Nat.leb n 90) || (Nat.leb 97 n && Nat.leb n 122))%bool.








(** ** Sample data *)

Module Sample.

(** A server that keeps UTC. *)
Definition utc : TimeZone :=
  {| offsetAtUTC := fun _ => 0; offsetAtLocal := fun _ => 0 |}.

Definition encrypt (s : string) : string := "00ff:" +:+ s.

Definition decrypt (s : string) : option string :=
  match JS.split ":" s with
  | [_; body] => Some body
  | _ => None
  end.

Definition cardData : CardData :=
  {| cd_cardId := Some "CRD001234";
     cd_customerId := Some "CUST789456";
     cd_customerName := Some "John Doe";
     cd_mobileNumber := Some "9876543210";
     cd_panMasked := Some "****-****-****-1234";
     cd_applicationId := Some "APP123456";
     cd_priority := Some "EXPRESS";
     cd_address := Some "Mumbai, Maharashtra";
     cd_message := None |}.

Definition t0 : Z := 1700000000000.

Definition fresh : CardJourney := newCardJourney utc encrypt t0 cardData.

Definition world0 : World := {| db := ∅; effects := [] |}.

Definition world1 : World := {| db := {[ "CRD001234" := fresh ]}; effects := [] |}.

Definition statusTo (status : string) (reason : option string) : StatusData :=
  {| sd_status := Some status;
     sd_source := Some "delivery_partner";
     sd_location := None;
     sd_operatorId := None;
     sd_batchId := None;
     sd_trackingId := None;
     sd_failureReason := reason;
     sd_eventData := None |}.

Definition hours (n : Z) : Z := n * 3600000.

(** [world1] after the card is reported delivered 50 hours later. *)
Definition world2 : World :=
  fst (updateCardStatus decrypt (t0 + hours 50) world1 "CRD001234"
         (statusTo "DELIVERED" None)).





(** Ten durations of a stage, four of them above eight hours. *)
Definition tenDurations : string * list Z :=
  ("IN_TRANSIT", [500; 90; 610; 120; 45; 700; 60; 481; 480; 30]).

(** Five durations of a stage with one straggler. *)
Definition skewedDurations : string * list Z :=
  ("OUT_FOR_DELIVERY", [10; 20; 30; 40; 1000]).

(** Three connections: one open, one closed, one open whose [send]
    throws. *)
Definition sockets (h : nat) : Fanout.Socket :=
  match h with
  | 0%nat => Fanout.mkSocket Fanout.OPEN false
  | 1%nat => Fanout.mkSocket Fanout.CLOSED false
  | _ => Fanout.mkSocket Fanout.OPEN true
  end.

Definition clients : gset nat := {[ 0%nat; 1%nat; 2%nat ]}.

Definition seedEvent (stage' : string) : JourneyEvent :=
  {| stage := stage'; timestamp := 0; source := "delivery_partner";
     location := None; operatorId := Some "OP001"; batchId := None;
     trackingId := None; previousStage := None; evFailureReason := None;
     durationMinutes := None; eventData := [] |}.

Definition timedEvent (stage' : string) (d : Z) : JourneyEvent :=
  {| stage := stage'; timestamp := t0; source := "delivery_partner";
     location := None; operatorId := None; batchId := None;
     trackingId := None; previousStage := None; evFailureReason := None;
     durationMinutes := Some d; eventData := [] |}.

(** A stored journey whose events carry the given durations of a
    stage. *)
Definition timedJourney (g : string * list Z) : CardJourney :=
  {| cardId := cardId fresh;
     customerId := customerId fresh;
     customerName := customerName fresh;
     mobileNumber := mobileNumber fresh;
     panMasked := panMasked fresh;
     applicationId := applicationId fresh;
     currentStatus := fst g;
     priority := priority fresh;
     address := address fresh;
     estimatedDelivery := estimatedDelivery fresh;
     actualDelivery := None;
     failureReason := None;
     retryCount := 0;
     journey := List.map (timedEvent (fst g)) (snd g);
     metadata := metadata fresh;
     createdAt := t0;
     updatedAt := t0 |}.

Definition journeyOf (w : World) : list JourneyEvent :=
  match db w !! "CRD001234" with
  | Some j => journey j
  | None => []
  end.

End Sample.

(** ** utils/encryption.js: masking helpers *)

Module Encryption.

(** ['*'.repeat(n)] *)
Fixpoint stars (n : nat) : string :=
  match n with
  | O => EmptyString
  | S k => String "*" (stars k)
  end.

(** [s.replace(/\D/g, '')] and its relatives: the characters of [s] that
    pass the test, in order. *)
Fixpoint keep (p : ascii -> bool) (s : string) : string :=
  match s with
  | EmptyString => EmptyString
  | String c t => if p c then String c (keep p t) else keep p t
  end.

(** [s.slice(-n)] for a count [n]: since [-0] is [0], [s.slice(-0)] is
    all of [s]. *)
Definition sliceFromEnd (n : nat) (s : string) : string :=
  match n with
  | O => s
  | _ => JS.slice_last n s
  end.

(** [maskData(text, visibleChars)]; a missing text is handed back. *)
Definition maskData (text : option string) (visibleChars : nat) : option string :=
  match text with
  | None => None
  | Some t =>
      if negb (JS.truthy text) || (String.length t <=? visibleChars)%nat
      then Some t
      else
        let masked := stars (String.length t - visibleChars) in
        Some (masked +:+ sliceFromEnd visibleChars t)
  end.

(** [maskMobile(mobile)] *)
Definition maskMobile (mobile : option string) : option string :=
  if negb (JS.truthy mobile) then None
  else
    let digits := keep JS.is_digit (default EmptyString mobile) in
    if (String.length digits =? 10)%nat then
      Some (String.substring 0 2 digits +:+ "****" +:+ JS.slice_last 4 digits)
    else if (String.length digits =? 12)%nat && JS.startsWith digits "91" then
      Some ("+91-****-**" +:+ JS.slice_last 4 digits)
    else maskData mobile 4.

(** [maskPAN(pan)] *)
Definition maskPAN (pan : option string) : option string :=
  if negb (JS.truthy pan) then None
  else
    let p := default EmptyString pan in
    if (String.length p =? 10)%nat then
      Some (String.substring 0 4 p +:+ "****" +:+ JS.slice_last 2 p)
    else maskData pan 2.

Definition is_lower (c : ascii) : bool :=
  let n := nat_of_ascii c in (Nat.leb 97 n && Nat.leb n 122)%bool.

Definition is_upper (c : ascii) : bool :=
  let n := nat_of_ascii c in (Nat.leb 65 n && Nat.leb n 90)%bool.

(** The character class of the fourth test of [validateKey]: the
    punctuation listed below and the double quote (code 34). *)
Definition is_special (c : ascii) : bool :=
  existsb (Ascii.eqb c)
    (list_ascii_of_string "!@#$%^&*(),.?:{}|<>" ++ [ascii_of_nat 34]).

Fixpoint exists_char (p : ascii -> bool) (s : string) : bool :=
  match s with
  | EmptyString => false
  | String c t => p c || exists_char p t
  end.

(** The key used when [ENCRYPTION_KEY] is not set in the environment. *)
Definition defaultEncryptionKey : string := "0TrSVXhu8sBTBlkyuK7vH3OF7P8v6izp".

(** [validateKey(key)] *)
Definition validateKey (key : option string) : bool :=
  match key with
  | None => false
  | Some k =>
      if negb (JS.truthy key) || (String.length k <? 32)%nat then false
      else
        let hasLower := exists_char is_lower k in
        let hasUpper := exists_char is_upper k in
        let hasNumber := exists_char JS.is_digit k in
        let hasSpecial := exists_char is_special k in
        hasLower && hasUpper && hasNumber && hasSpecial
  end.

End Encryption.

(** ** models/CardJourney.js: the methods of a journey *)

(** The object handed to [addJourneyEvent]. *)
Record EventInput := mkEventInput {
  ei_stage : string;
  ei_timestamp : option Z;
  ei_source : string;
  ei_location : option string;
  ei_operatorId : option string;
  ei_batchId : option string;
  ei_trackingId : option string;
  ei_previousStage : option string;
  ei_failureReason : option string;
  ei_durationMinutes : option Z;
  ei_eventData : Payload
}.

(** The document after the assignments of [addJourneyEvent], as it is
    handed to [save()]; the pushed event takes the default [timestamp]
    when it has none. *)
Definition addJourneyEvent (now : Z) (doc : CardJourney) (eventData' : EventInput)
    : CardJourney :=
  {| cardId := cardId doc;
     customerId := customerId doc;
     customerName := customerName doc;
     mobileNumber := mobileNumber doc;
     panMasked := panMasked doc;
     applicationId := applicationId doc;
     currentStatus := ei_stage eventData';
     priority := priority doc;
     address := address doc;
     estimatedDelivery := estimatedDelivery doc;
     actualDelivery :=
       if String.eqb (ei_stage eventData') "DELIVERED"
       then Some (default now (ei_timestamp eventData'))
       else actualDelivery doc;
     failureReason :=
       if JS.truthy (ei_failureReason eventData')
       then ei_failureReason eventData' else failureReason doc;
     retryCount := retryCount doc;
     journey := journey doc ++
       [ {| stage := ei_stage eventData';
            timestamp := default now (ei_timestamp eventData');
            source := ei_source eventData';
            location := ei_location eventData';
            operatorId := ei_operatorId eventData';
            batchId := ei_batchId eventData';
            trackingId := ei_trackingId eventData';
            previousStage := ei_previousStage eventData';
            evFailureReason := ei_failureReason eventData';
            durationMinutes := ei_durationMinutes eventData';
            eventData := ei_eventData eventData' |} ];
     metadata := metadata doc;
     createdAt := createdAt doc;
     updatedAt := updatedAt doc |}.

(** The virtual [totalDurationHours]. *)
Definition totalDurationHours (doc : CardJourney) : option Z :=
  match actualDelivery doc with
  | Some delivered =>
      Some (JS.Math_round (inject_Z (delivered - createdAt doc)
                           / inject_Z (1000 * 60 * 60)))
  | None => None
  end.

(** ** services/cardService.js: the delayed cards *)

Fixpoint insertOldest (j : CardJourney) (l : list CardJourney) : list CardJourney :=
  match l with
  | [] => [j]
  | x :: t => if createdAt j <? createdAt x then j :: l else x :: insertOldest j t
  end.

(** [.sort({ createdAt: 1 })] *)
Definition sortOldestFirst (l : list CardJourney) : list CardJourney :=
  fold_right insertOldest [] l.

(** [getDelayedCards(thresholdHours)]: the stored documents as they
    are, without the sanitizing of the other listings. *)
Definition getDelayedCards (tz : TimeZone) (now : Z) (w : World) (thresholdHours : Z)
    : list CardJourney :=
  let thresholdDate := addLocalHours tz now (inject_Z (- thresholdHours)) in
  sortOldestFirst
    (List.filter
       (fun doc =>
          (createdAt doc <? thresholdDate)
          && negb (in_enum (currentStatus doc) ["DELIVERED"; "DESTROYED"; "RETURNED"]))
       (documents w)).

(** ** The SMS service: the number a message is sent to *)

Module Sms.

Definition is_digit_or_plus (c : ascii) : bool :=
  JS.is_digit c || Ascii.eqb c "+".

(** [formatMobileNumber(mobile)] *)
Definition formatMobileNumber (mobile : option string) : option string :=
  if negb (JS.truthy mobile) then None
  else
    let cleanNumber := Encryption.keep is_digit_or_plus (default EmptyString mobile) in
    if JS.startsWith cleanNumber "+91" then Some cleanNumber
    else if JS.startsWith cleanNumber "91" && (String.length cleanNumber =? 12)%nat
    then Some ("+" +:+ cleanNumber)
    else if JS.startsWith cleanNumber "0" && (String.length cleanNumber =? 11)%nat
    then Some ("+91" +:+ String.substring 1 (String.length cleanNumber - 1) cleanNumber)
    else if (String.length cleanNumber =? 10)%nat
    then Some ("+91" +:+ cleanNumber)
    else Some (if JS.startsWith cleanNumber "+" then cleanNumber
               else "+" +:+ cleanNumber).

(** [maskPhoneNumber(phone)] *)
Definition maskPhoneNumber (phone : option string) : string :=
  if negb (JS.truthy phone)
     || (String.length (default EmptyString phone) <? 4)%nat
  then "****"
  else "****" +:+ JS.slice_last 4 (default EmptyString phone).

End Sms.

(** ** How a journey may change over time *)

(** [j'] continues [j]: the same card, whose recorded events are kept in
    place with further events after them, whose retry counter has not
    dropped and whose failure reason, if it had one, has not been
    cleared. *)
Definition continues (j j' : CardJourney) : Prop :=
  cardId j' = cardId j /\ createdAt j' = createdAt j /\
  (exists newer, journey j' = journey j ++ newer) /\
  retryCount j <= retryCount j' /\
  (JS.truthy (failureReason j) = true -> JS.truthy (failureReason j') = true).


(** ** Properties of the journey service *)

Lemma last_event_app (j : CardJourney) es e :
  journey j = es ++ [e] -> last_event j = Some e.
Proof.
  unfold last_event. intros ->.
  rewrite List.map_app. simpl. apply List.last_last.
Qed.

Lemma updateCardStatus_inv decrypt now w cardId' statusData w' out :
  updateCardStatus decrypt now w cardId' statusData = (w', Ok out) ->
  exists cardJourney status source,
    sd_status statusData = Some status /\ sd_source statusData = Some source /\
    nonempty status = true /\ nonempty source = true /\
    db w !! cardId' = Some cardJourney /\
    let newEvent := newEventOf now cardJourney status source statusData in
    let updatedCard :=
      applyUpdateData now cardJourney status newEvent (sd_failureReason statusData) in
    db w' = <[cardId' := updatedCard]> (db w) /\
    out = sanitizeCardData decrypt updatedCard /\
    exists data rest,
      effects w' = effects w ++ Broadcast "status_updated" data :: rest.
Proof.
  unfold updateCardStatus.
  destruct (sd_status statusData) as [status|] eqn:Hst; simpl; [|discriminate].
  destruct (sd_source statusData) as [source|] eqn:Hso; simpl;
    [|rewrite orb_true_r; discriminate].
  destruct (negb (negb (String.eqb status "")) || negb (negb (String.eqb source "")))
    eqn:Hchk; [discriminate|].
  apply orb_false_elim in Hchk as [H1 H2].
  apply negb_false_iff in H1, H2.
  destruct (db w !! cardId') as [cardJourney|] eqn:Hdb; [|discriminate].
  intros [= <- <-].
  exists cardJourney, status, source. simpl.
  repeat split; try done.
  eexists _, _. simpl. reflexivity.
Qed.

Lemma createCard_fails tz encrypt decrypt now w cardData :
  exists e, createCard tz encrypt decrypt now w cardData = (w, Err e).
Proof.
  unfold createCard.
  destruct (negb _); [eauto|].
  assert (validateJourney (newCardJourney tz encrypt now cardData) = false) as ->.
  { unfold validateJourney. simpl.
    rewrite !andb_false_r. reflexivity. }
  simpl. eauto.
Qed.

(** C5.  [createCard] builds a journey whose single event and whose
    status are ['USER_CREATED'], a stage that the schema's enum does not
    list: [save()] rejects the document, so no call of [createCard]
    returns a journey and the store is left as it was. *)
Theorem C5_createCard_rejected_by_schema :
  forall tz encrypt decrypt now w cardData,
    let cardJourney := newCardJourney tz encrypt now cardData in
    (exists e, journey cardJourney = [e] /\ stage e = currentStatus cardJourney
               /\ previousStage e = None) /\
    in_enum (currentStatus cardJourney) stageEnum = false /\
    validateJourney cardJourney = false /\
    (exists err, createCard tz encrypt decrypt now w cardData = (w, Err err)) /\
    createCard Sample.utc Sample.encrypt Sample.decrypt Sample.t0 Sample.world0 Sample.cardData
      = (Sample.world0, Err ValidationFailed).
Proof.
  intros. repeat split.
  - eexists. repeat split; reflexivity.
  - unfold validateJourney. simpl. rewrite !andb_false_r. reflexivity.
  - apply createCard_fails.
Qed.

Lemma statusIsLastStage_new tz encrypt now cardData :
  statusIsLastStage (newCardJourney tz encrypt now cardData).
Proof. split; [discriminate | reflexivity]. Qed.

Lemma statusIsLastStage_update now doc status source statusData reason :
  statusIsLastStage
    (applyUpdateData now doc status
       (newEventOf now doc status source statusData) reason).
Proof.
  split.
  - simpl. intros H. apply List.app_eq_nil in H as [_ H]. discriminate.
  - erewrite last_event_app by reflexivity. reflexivity.
Qed.

Lemma ServiceStep_preserves (P : CardJourney -> Prop) tz encrypt decrypt w w' :
  (forall now doc status source statusData,
      P doc ->
      P (applyUpdateData now doc status
           (newEventOf now doc status source statusData)
           (sd_failureReason statusData))) ->
  ServiceStep tz encrypt decrypt w w' -> AllJourneys P w -> AllJourneys P w'.
Proof.
  intros Hupd Hstep Hall. destruct Hstep as [now w cd w' out H | now w id sd w' out H].
  - destruct (createCard_fails tz encrypt decrypt now w cd) as [e He].
    rewrite He in H. discriminate.
  - apply updateCardStatus_inv in H
      as (doc & status & source & _ & _ & _ & _ & Hdb & Hdb' & _).
    intros k j Hk. rewrite Hdb' in Hk.
    destruct (decide (id = k)) as [->|Hne].
    + rewrite lookup_insert_eq in Hk. injection Hk as <-. eauto.
    + rewrite lookup_insert_ne in Hk by done. eauto.
Qed.

Lemma rtc_ServiceStep_preserves (P : CardJourney -> Prop) tz encrypt decrypt w w' :
  (forall now doc status source statusData,
      P doc ->
      P (applyUpdateData now doc status
           (newEventOf now doc status source statusData)
           (sd_failureReason statusData))) ->
  rtc (ServiceStep tz encrypt decrypt) w w' -> AllJourneys P w -> AllJourneys P w'.
Proof.
  intros Hupd Hrun. induction Hrun as [|w w1 w2 Hstep _ IH]; [done|].
  intros Hall. apply IH. eapply ServiceStep_preserves; eauto.
Qed.

(** C2.  The document that [createCard] builds has its status equal to
    the stage of its one event, and every run of successful service calls
    keeps, for every stored journey, a non-empty event list whose last
    stage is the current status. *)
Theorem C2_status_is_stage_of_last_event :
  forall tz encrypt decrypt w w',
    AllJourneys statusIsLastStage w ->
    rtc (ServiceStep tz encrypt decrypt) w w' ->
    (forall now cardData, statusIsLastStage (newCardJourney tz encrypt now cardData)) /\
    AllJourneys statusIsLastStage w'.
Proof.
  intros tz encrypt decrypt w w' Hall Hrun. split.
  - intros. apply statusIsLastStage_new.
  - eapply rtc_ServiceStep_preserves; eauto.
    intros. apply statusIsLastStage_update.
Qed.

Lemma updateCardStatus_cases decrypt now w cardId' statusData :
  (JS.truthy (sd_status statusData) && JS.truthy (sd_source statusData) = false /\
   updateCardStatus decrypt now w cardId' statusData = (w, Err MissingStatusFields)) \/
  (JS.truthy (sd_status statusData) && JS.truthy (sd_source statusData) = true /\
   db w !! cardId' = None /\
   updateCardStatus decrypt now w cardId' statusData = (w, Err CardNotFound)) \/
  (JS.truthy (sd_status statusData) && JS.truthy (sd_source statusData) = true /\
   exists doc w' out,
     db w !! cardId' = Some doc /\
     updateCardStatus decrypt now w cardId' statusData = (w', Ok out)).
Proof.
  unfold updateCardStatus.
  destruct (JS.truthy (sd_status statusData)); simpl; [|left; done].
  destruct (JS.truthy (sd_source statusData)); simpl; [|left; done].
  destruct (db w !! cardId') as [doc|]; [|right; left; done].
  right; right. split; [done|]. eauto.
Qed.

Lemma Sample_world1_status : AllJourneys statusIsLastStage Sample.world1.
Proof.
  intros k j Hk. unfold Sample.world1 in Hk. simpl in Hk.
  apply lookup_singleton_Some in Hk as [_ <-].
  apply statusIsLastStage_new.
Qed.

Lemma Sample_world1_to_world2 :
  rtc (ServiceStep Sample.utc Sample.encrypt Sample.decrypt) Sample.world1 Sample.world2.
Proof.
  apply rtc_once.
  destruct (updateCardStatus_cases Sample.decrypt (Sample.t0 + Sample.hours 50)
              Sample.world1 "CRD001234" (Sample.statusTo "DELIVERED" None))
    as [[H _]|[(_ & H & _)|(_ & doc & w' & out & _ & H)]].
  - discriminate H.
  - simpl in H. apply lookup_singleton_None in H. done.
  - unfold Sample.world2. rewrite H. simpl.
    eapply StepAdvance. exact H.
Qed.

Lemma C2_witness :
  AllJourneys statusIsLastStage Sample.world1 /\
  rtc (ServiceStep Sample.utc Sample.encrypt Sample.decrypt) Sample.world1 Sample.world2 /\
  AllJourneys statusIsLastStage Sample.world2.
Proof.
  split; [exact Sample_world1_status|].
  split; [exact Sample_world1_to_world2|].
  exact (proj2 (C2_status_is_stage_of_last_event
                  Sample.utc Sample.encrypt Sample.decrypt Sample.world1 Sample.world2
                  Sample_world1_status Sample_world1_to_world2)).
Defined.

(** What a successful [updateCardStatus] writes: the events recorded so
    far are kept as they are and one event is appended, which carries the
    target stage and the minutes elapsed since the previous event. *)
Lemma updateCardStatus_appends_timed_event decrypt now w cardId' statusData w' out :
  updateCardStatus decrypt now w cardId' statusData = (w', Ok out) ->
  exists doc doc' e,
    db w !! cardId' = Some doc /\ db w' !! cardId' = Some doc' /\
    journey doc' = journey doc ++ [e] /\
    Some (stage e) = sd_status statusData /\
    Some (currentStatus doc') = sd_status statusData /\
    timestamp e = now /\
    durationMinutes e =
      option_map (fun l => JS.Math_round (inject_Z (now - timestamp l) / inject_Z 60000))
                 (last_event doc).
Proof.
  intros H. apply updateCardStatus_inv in H
    as (doc & status & source & Hst & _ & _ & _ & Hdb & Hdb' & _).
  eexists doc, _, _. split; [done|]. split.
  { rewrite Hdb'. apply lookup_insert_eq. }
  simpl. repeat split; done.
Qed.

(** C1, as the code has it.  [updateCardStatus] consults no stage table.
    It fails exactly when the status or the source is missing or the card
    is unknown, and then neither the store nor the list of effects
    changes; every other call, whatever the current stage of the journey,
    appends an event with the target stage, makes it the current status
    and broadcasts ['status_updated']. *)
Theorem C1_advance_checks_no_stage_table :
  forall decrypt now w cardId' statusData,
    let r := updateCardStatus decrypt now w cardId' statusData in
    ((exists e, snd r = Err e) <->
       JS.truthy (sd_status statusData) = false \/
       JS.truthy (sd_source statusData) = false \/
       db w !! cardId' = None) /\
    (forall e, snd r = Err e -> fst r = w) /\
    (forall out, snd r = Ok out ->
       exists doc doc' e,
         db w !! cardId' = Some doc /\ db (fst r) !! cardId' = Some doc' /\
         Some (currentStatus doc') = sd_status statusData /\
         journey doc' = journey doc ++ [e] /\
         Some (stage e) = sd_status statusData /\
         exists data rest,
           effects (fst r) = effects w ++ Broadcast "status_updated" data :: rest).
Proof.
  intros decrypt now w id sd r. subst r.
  destruct (updateCardStatus_cases decrypt now w id sd)
    as [[Hchk H] | [[Hchk [Hdb H]] | [Hchk (doc & w' & out & Hdb & H)]]];
    rewrite H; simpl.
  - split; [|split; [done | discriminate]].
    split; [intros _|eauto].
    apply andb_false_iff in Hchk. tauto.
  - split; [|split; [done | discriminate]].
    split; eauto.
  - apply andb_true_iff in Hchk as [Hs Hso].
    split; [|split; [discriminate|]].
    + split; [intros [e He]; discriminate|].
      intros [Hf | [Hf | Hf]]; congruence.
    + intros out' _.
      destruct (updateCardStatus_appends_timed_event _ _ _ _ _ _ _ H)
        as (doc0 & doc' & e & H1 & H2 & H3 & H4 & H5 & _).
      apply updateCardStatus_inv in H as (_ & _ & _ & _ & _ & _ & _ & _ & _ & _ & Heff).
      exists doc0, doc', e. repeat split; done.
Qed.

(** C1, as the claim states it, fails: a delivered card (a terminal
    stage, from which the table reaches nothing) is moved back to
    [APPROVED]; the event is appended and the change is broadcast. *)
Lemma C1_counterexample_delivered_card_reopened :
  let r := updateCardStatus Sample.decrypt (Sample.t0 + Sample.hours 51)
             Sample.world2 "CRD001234" (Sample.statusTo "APPROVED" None) in
  option_map currentStatus (db Sample.world2 !! "CRD001234") = Some "DELIVERED" /\
  reachable "DELIVERED" "APPROVED" = false /\
  (exists out, snd r = Ok out) /\
  option_map currentStatus (db (fst r) !! "CRD001234") = Some "APPROVED" /\
  List.map stage (Sample.journeyOf Sample.world2) = ["USER_CREATED"; "DELIVERED"] /\
  List.map stage (Sample.journeyOf (fst r)) = ["USER_CREATED"; "DELIVERED"; "APPROVED"] /\
  exists data rest,
    effects (fst r) = effects Sample.world2 ++ Broadcast "status_updated" data :: rest.
Proof.
  intros r.
  split; [vm_compute; reflexivity|].
  split; [reflexivity|].
  split.
  { subst r.
    destruct (updateCardStatus_cases Sample.decrypt (Sample.t0 + Sample.hours 51)
                Sample.world2 "CRD001234" (Sample.statusTo "APPROVED" None))
      as [[H _]|[(_ & H & _)|(_ & doc & w' & out & _ & H)]].
    - discriminate H.
    - vm_compute in H. discriminate H.
    - rewrite H. eexists. reflexivity. }
  split; [vm_compute; reflexivity|].
  split; [vm_compute; reflexivity|].
  split; [vm_compute; reflexivity|].
  eexists _, _. vm_compute. reflexivity.
Qed.

(** C3.  Fifty hours after its creation a card is advanced once.  The
    3000 minutes are written on the new, last event; the first event,
    which is no longer the last, carries no duration.  On the same time
    line the generator of the seed script writes the 3000 minutes on the
    first event and leaves the last one without a duration. *)
Theorem C3_duration_is_written_on_the_new_event :
  List.map timestamp (Sample.journeyOf Sample.world2)
    = [Sample.t0; Sample.t0 + Sample.hours 50] /\
  List.map durationMinutes (Sample.journeyOf Sample.world2) = [None; Some 3000] /\
  List.map durationMinutes
    (Seed.generateJourneyEvents Sample.t0
       [ (Sample.seedEvent "APPROVED", Sample.hours 50);
         (Sample.seedEvent "DELIVERED", 0) ])
  = [Some 3000; None].
Proof. repeat split; vm_compute; reflexivity. Qed.

Lemma retryCountsReasons_new tz encrypt now cardData :
  retryCountsReasons (newCardJourney tz encrypt now cardData).
Proof. reflexivity. Qed.

Lemma retryCount_update now doc status newEvent reason :
  retryCount (applyUpdateData now doc status newEvent reason)
  = retryCount doc + (if JS.truthy reason then 1 else 0).
Proof. simpl. destruct (JS.truthy reason); lia. Qed.

Lemma retryCountsReasons_update now doc status source statusData :
  retryCountsReasons doc ->
  retryCountsReasons
    (applyUpdateData now doc status
       (newEventOf now doc status source statusData)
       (sd_failureReason statusData)).
Proof.
  unfold retryCountsReasons, countEvents. intros Hdoc.
  rewrite retryCount_update, Hdoc. simpl journey.
  rewrite List.filter_app, List.length_app. simpl.
  destruct (JS.truthy (sd_failureReason statusData)); simpl; lia.
Qed.

(** C4, as the code has it.  The counter starts at zero, and a
    successful [updateCardStatus] adds one to it exactly when the request
    carries a non-empty [failureReason], whatever its target stage; no
    other service call changes it.  So on every stored journey the
    counter equals the number of recorded events that carry a failure
    reason. *)
Theorem C4_retryCount_counts_failure_reasons :
  forall tz encrypt decrypt w w',
    AllJourneys retryCountsReasons w ->
    rtc (ServiceStep tz encrypt decrypt) w w' ->
    (forall now cardData, retryCount (newCardJourney tz encrypt now cardData) = 0) /\
    (forall now doc status source statusData,
        retryCount (applyUpdateData now doc status
                      (newEventOf now doc status source statusData)
                      (sd_failureReason statusData))
        = retryCount doc
          + (if JS.truthy (sd_failureReason statusData) then 1 else 0)) /\
    AllJourneys retryCountsReasons w'.
Proof.
  intros tz encrypt decrypt w w' Hall Hrun.
  split; [reflexivity|]. split.
  - intros. apply retryCount_update.
  - eapply rtc_ServiceStep_preserves; eauto.
    intros. by apply retryCountsReasons_update.
Qed.

Lemma Sample_world1_retry : AllJourneys retryCountsReasons Sample.world1.
Proof.
  intros k j Hk. unfold Sample.world1 in Hk. simpl in Hk.
  apply lookup_singleton_Some in Hk as [_ <-].
  apply retryCountsReasons_new.
Qed.

Lemma C4_witness :
  AllJourneys retryCountsReasons Sample.world1 /\
  rtc (ServiceStep Sample.utc Sample.encrypt Sample.decrypt) Sample.world1 Sample.world2 /\
  AllJourneys retryCountsReasons Sample.world2.
Proof.
  split; [exact Sample_world1_retry|].
  split; [exact Sample_world1_to_world2|].
  exact (proj2 (proj2 (C4_retryCount_counts_failure_reasons
                         Sample.utc Sample.encrypt Sample.decrypt Sample.world1 Sample.world2
                         Sample_world1_retry Sample_world1_to_world2))).
Defined.

(** C4, as the claim states it, fails in both directions: an advance to
    [EMBOSSING_FAILED] that gives no reason leaves the counter at zero
    although a failure-stage event is recorded, and an advance to
    [DISPATCHED] that gives a reason raises the counter although no
    failure-stage event is recorded. *)
Lemma C4_counterexample_counter_follows_reason_not_stage :
  let failed := fst (updateCardStatus Sample.decrypt (Sample.t0 + Sample.hours 1)
                       Sample.world1 "CRD001234"
                       (Sample.statusTo "EMBOSSING_FAILED" None)) in
  let dispatched := fst (updateCardStatus Sample.decrypt (Sample.t0 + Sample.hours 1)
                           Sample.world1 "CRD001234"
                           (Sample.statusTo "DISPATCHED" (Some "label reprinted"))) in
  let failureEvents := countEvents (fun e => isFailureStage (stage e)) in
  option_map retryCount (db failed !! "CRD001234") = Some 0 /\
  option_map failureEvents (db failed !! "CRD001234") = Some 1 /\
  option_map retryCount (db dispatched !! "CRD001234") = Some 1 /\
  option_map failureEvents (db dispatched !! "CRD001234") = Some 0.
Proof. repeat split; vm_compute; reflexivity. Qed.

(** ** Properties of the responses *)

Lemma substring_length_le s : forall k m, (String.length (String.substring k m s) <= m)%nat.
Proof.
  induction s as [|c t IH]; intros k m.
  - destruct k, m; simpl; lia.
  - destruct k; [destruct m|]; simpl.
    + lia.
    + specialize (IH 0%nat m). lia.
    + apply IH.
Qed.

Lemma substring_whole s : forall m, (String.length s <= m)%nat -> String.substring 0 m s = s.
Proof.
  induction s as [|c t IH]; intros m Hm.
  - destruct m; reflexivity.
  - destruct m; simpl in *; [lia|]. rewrite IH by lia. reflexivity.
Qed.

Lemma slice_last_suffix n s :
  exists hidden, s = hidden +:+ JS.slice_last n s /\
                 (String.length (JS.slice_last n s) <= n)%nat.
Proof.
  unfold JS.slice_last. induction s as [|c t [hidden [Ht Hlen]]].
  - exists "". split; [destruct n; reflexivity | apply substring_length_le].
  - destruct (le_lt_dec (String.length (String c t)) n) as [Hle|Hgt].
    + exists "". replace (String.length (String c t) - n)%nat with 0%nat by lia.
      rewrite substring_whole by done. split; [reflexivity | done].
    + simpl in Hgt.
      replace (String.length (String c t) - n)%nat
        with (S (String.length t - n)) by (simpl; lia).
      exists (String c hidden). simpl. split; [exact (f_equal (String c) Ht) | done].
Qed.





(** ** Properties of the search *)





Lemma In_documents w j : In j (documents w) <-> exists k, db w !! k = Some j.
Proof.
  unfold documents. rewrite List.in_map_iff. split.
  - intros [[k j'] [<- Hin]]. exists k. simpl.
    apply elem_of_map_to_list. by apply list_elem_of_In.
  - intros [k Hk]. exists (k, j). split; [done|].
    apply list_elem_of_In. by apply elem_of_map_to_list.
Qed.








Lemma length_nonneg s : 0 <= JS.length s.
Proof.
  induction s as [|c t IH]; simpl; [lia|].
  unfold JS.utf16_units. repeat destruct (_ : bool); lia.
Qed.








(** ** Properties of the bottleneck summary *)

Lemma Qgtb_lt a b : Analytics.Qgtb a b = true <-> (b < a)%Q.
Proof.
  unfold Analytics.Qgtb. rewrite negb_true_iff. split.
  - intros H. apply Qnot_le_lt. intros Hle.
    apply Qle_bool_iff in Hle. congruence.
  - intros H. destruct (Qle_bool a b) eqn:E; [|reflexivity].
    apply Qle_bool_iff in E. exfalso. by apply (Qlt_not_le b a).
Qed.

Lemma Qgtb_not_lt a b : Analytics.Qgtb a b = false <-> ~ (b < a)%Q.
Proof.
  rewrite <- Qgtb_lt. destruct (Analytics.Qgtb a b); split; congruence.
Qed.

Lemma p95Position_NaN : Analytics.p95Position = JS.NaN.
Proof. reflexivity. Qed.

Lemma analyzeGroup_large g :
  5 <= Z.of_nat (List.length (snd g)) -> Analytics.analyzeGroup g = Analytics.Failed.
Proof.
  intros H5. unfold Analytics.analyzeGroup.
  apply Z.leb_le in H5. rewrite H5. simpl negb. cbv iota.
  rewrite p95Position_NaN. reflexivity.
Qed.

Lemma analyzeGroup_small g :
  Z.of_nat (List.length (snd g)) < 5 ->
  Analytics.analyzeGroup g = Analytics.Rows None.
Proof.
  intros H5. unfold Analytics.analyzeGroup.
  apply Z.leb_gt in H5. by rewrite H5.
Qed.

Lemma aggregateGroups_Rows groups rows :
  Analytics.aggregateGroups groups = Analytics.Rows rows -> rows = [].
Proof.
  revert rows. induction groups as [|g rest IH]; intros rows; simpl.
  - by intros [= <-].
  - destruct (Z.le_gt_cases 5 (Z.of_nat (List.length (snd g)))) as [H5|H5].
    + rewrite (analyzeGroup_large g H5). discriminate.
    + rewrite (analyzeGroup_small g) by lia.
      destruct (Analytics.aggregateGroups rest) as [rows'|]; [|discriminate].
      intros [= <-]. by apply IH.
Qed.

Lemma Math_round_half n : JS.Math_round (inject_Z n / 2)%Q = (n + 1) / 2.
Proof.
  unfold JS.Math_round, Qfloor, Qdiv, Qmult, Qplus, Qinv, inject_Z. simpl.
  transitivity (((n + 1) * 2) / (2 * 2)).
  - f_equal. change (Z.pos (1 * 2)) with 2. lia.
  - apply Z.div_mul_cancel_r; lia.
Qed.

(** C6.  The position handed to [$slice] for the 95th percentile is
    the JavaScript value of [Math.floor("$count" * 0.95)], which is NaN;
    the store refuses it, so the aggregation fails for every group that
    survives the minimum-sample filter, and no run of
    [analyzeBottlenecks] ever persists a summary: a run either fails or
    has met no such group and writes nothing.  For a stored journey with
    the durations 10, 20, 30, 40 and 1000 of one stage the run fails.
    (The median the code would store, [calculateMedian], is the rounded
    mean of the smallest and the largest duration, 505 for this sample,
    whose median is 30.) *)
Theorem C6_no_summary_is_ever_persisted :
  Analytics.p95Position = JS.NaN /\
  (forall g, 5 <= Z.of_nat (List.length (snd g)) ->
             Analytics.analyzeGroup g = Analytics.Failed) /\
  (forall today sevenDaysAgo docs summaries ending,
      Analytics.analyzeBottlenecks today sevenDaysAgo docs
        = Analytics.Rows (summaries, ending) ->
      summaries = ∅) /\
  Analytics.groupByStage
    (Analytics.timedEvents 0 [Sample.timedJourney Sample.skewedDurations])
    = [Sample.skewedDurations] /\
  Analytics.analyzeBottlenecks Sample.t0 0 [Sample.timedJourney Sample.skewedDurations]
    = Analytics.Failed /\
  (forall sa, Analytics.calculateMedian sa
              = (Analytics.minDuration sa + Analytics.maxDuration sa + 1) / 2) /\
  (10 + 1000 + 1) / 2 = 505 /\
  (Analytics.spec_median (snd Sample.skewedDurations) == 30)%Q.
Proof.
  split; [reflexivity|]. split; [exact analyzeGroup_large|]. split.
  - intros today since docs summaries ending. unfold Analytics.analyzeBottlenecks.
    destruct (Analytics.aggregateGroups _) as [rows|] eqn:E; [|discriminate].
    apply aggregateGroups_Rows in E as ->. by intros [= <- _].
  - split; [reflexivity|]. split; [reflexivity|].
    split; [intros sa; apply Math_round_half|].
    split; reflexivity.
Qed.

(** C7.  The example of the claim, ten durations of one stage with four
    above 480 minutes: the [$switch] of the pipeline would rate the
    ratio 4/10 critical (above 0.3 critical, else above 0.2 high, else
    above 0.1 medium, else low), but the projection that holds it also
    holds the [$slice] with the NaN position, so the aggregation fails on
    this group and [analyzeBottlenecks] throws without a severity. *)
Theorem C7_example_group_is_never_classified :
  Z.of_nat (List.length (snd Sample.tenDurations)) = 10 /\
  Analytics.delayedCountOf (snd Sample.tenDurations) = 4 /\
  (forall delayed total,
      let ratio := (inject_Z delayed / inject_Z total)%Q in
      ((3 # 10 < ratio)%Q -> Analytics.severityOf delayed total = Analytics.critical) /\
      (~ (3 # 10 < ratio)%Q -> (2 # 10 < ratio)%Q ->
       Analytics.severityOf delayed total = Analytics.high) /\
      (~ (2 # 10 < ratio)%Q -> (1 # 10 < ratio)%Q ->
       Analytics.severityOf delayed total = Analytics.medium) /\
      (~ (1 # 10 < ratio)%Q -> Analytics.severityOf delayed total = Analytics.low)) /\
  Analytics.severityOf 4 10 = Analytics.critical /\
  Analytics.analyzeGroup Sample.tenDurations = Analytics.Failed /\
  Analytics.groupByStage
    (Analytics.timedEvents 0 [Sample.timedJourney Sample.tenDurations])
    = [Sample.tenDurations] /\
  Analytics.analyzeBottlenecks Sample.t0 0 [Sample.timedJourney Sample.tenDurations]
    = Analytics.Failed.
Proof.
  split; [reflexivity|]. split; [reflexivity|]. split.
  - intros delayed total ratio. unfold Analytics.severityOf. fold ratio.
    split; [|split; [|split]].
    + intros H3. apply Qgtb_lt in H3. by rewrite H3.
    + intros H3 H2. apply Qgtb_not_lt in H3. apply Qgtb_lt in H2. by rewrite H3, H2.
    + intros H2 H1.
      assert (~ (3 # 10 < ratio)%Q) as H3.
      { intros H3. apply H2. eapply Qlt_trans; [|exact H3]. reflexivity. }
      apply Qgtb_not_lt in H3, H2. apply Qgtb_lt in H1. by rewrite H3, H2, H1.
    + intros H1.
      assert (~ (2 # 10 < ratio)%Q) as H2.
      { intros H2. apply H1. eapply Qlt_trans; [|exact H2]. reflexivity. }
      assert (~ (3 # 10 < ratio)%Q) as H3.
      { intros H3. apply H2. eapply Qlt_trans; [|exact H3]. reflexivity. }
      apply Qgtb_not_lt in H3, H2, H1. by rewrite H3, H2, H1.
  - repeat split; reflexivity.
Qed.

(** ** Properties of the fan-out *)

Lemma visit_fold_clients sockets message l : forall acc h,
  h ∈ Fanout.connectedClients (fold_left (Fanout.visit sockets message) l acc) <->
  h ∈ Fanout.connectedClients acc /\
  ~ (In h l /\ Fanout.isOpen sockets h = true /\ Fanout.throws sockets h = true).
Proof.
  unfold Fanout.isOpen, Fanout.throws.
  induction l as [|c t IH]; intros acc h; simpl.
  - tauto.
  - rewrite IH. unfold Fanout.visit.
    destruct (Fanout.is_open (Fanout.readyState (sockets c))) eqn:Ho;
      [destruct (Fanout.sendThrows (sockets c)) eqn:Ht|]; simpl.
    + rewrite elem_of_difference, elem_of_singleton. split.
      * intros [[Hh Hne] Hn]. split; [done|].
        intros [[->|Hin] Hrest]; [done | tauto].
      * intros [Hh Hn]. split; [split; [done|] | tauto].
        intros ->. tauto.
    + split; intros [Hh Hn]; (split; [done|]).
      * intros [[->|Hin] [Hop Hthr]]; [congruence | tauto].
      * tauto.
    + split; intros [Hh Hn]; (split; [done|]).
      * intros [[->|Hin] [Hop Hthr]]; [congruence | tauto].
      * tauto.
Qed.

Lemma visit_fold_sent sockets message l : forall acc h m,
  In (h, m) (Fanout.sent (fold_left (Fanout.visit sockets message) l acc)) <->
  In (h, m) (Fanout.sent acc) \/
  (m = message /\ In h l /\
   Fanout.isOpen sockets h = true /\ Fanout.throws sockets h = false).
Proof.
  unfold Fanout.isOpen, Fanout.throws.
  induction l as [|c t IH]; intros acc h m; simpl.
  - tauto.
  - rewrite IH. unfold Fanout.visit.
    destruct (Fanout.is_open (Fanout.readyState (sockets c))) eqn:Ho;
      [destruct (Fanout.sendThrows (sockets c)) eqn:Ht|]; simpl.
    + split; [tauto|].
      intros [H|(Hm & [->|Hin] & Hop & Hthr)]; [tauto | congruence | tauto].
    + rewrite List.in_app_iff. simpl. split.
      * intros [[H|[[= <- <-]|[]]]|H]; [tauto | right | tauto]. tauto.
      * intros [H|(-> & [->|Hin] & Hop & Hthr)]; tauto.
    + split; [tauto|].
      intros [H|(Hm & [->|Hin] & Hop & Hthr)]; [tauto | congruence | tauto].
Qed.

Lemma sweep_fold sockets l : forall (acc : gset nat) h,
  h ∈ fold_left (fun acc client =>
                   if Fanout.is_open (Fanout.readyState (sockets client))
                   then acc else acc ∖ {[client]}) l acc <->
  h ∈ acc /\ ~ (In h l /\ Fanout.isOpen sockets h = false).
Proof.
  unfold Fanout.isOpen. induction l as [|c t IH]; intros acc h; simpl.
  - tauto.
  - rewrite IH.
    destruct (Fanout.is_open (Fanout.readyState (sockets c))) eqn:Ho.
    + split; intros [Hh Hn]; (split; [done|]).
      * intros [[->|Hin] Hop]; [congruence | tauto].
      * tauto.
    + rewrite elem_of_difference, elem_of_singleton. split.
      * intros [[Hh Hne] Hn]. split; [done|].
        intros [[->|Hin] Hrest]; [done | tauto].
      * intros [Hh Hn]. split; [split; [done|] | tauto].
        intros ->. tauto.
Qed.

Lemma In_elements (s : gset nat) h : In h (elements s) <-> h ∈ s.
Proof. rewrite <- list_elem_of_In. apply elem_of_elements. Qed.

(** C9, as the code has it.  During a broadcast a subscriber of the set
    is sent the message exactly when its connection is open and [send]
    does not throw.  The broadcast removes a subscriber exactly when its
    connection is open and [send] throws; a subscriber whose connection
    is not open is skipped and stays in the set, and it is the periodic
    clean-up that removes it.  Nothing is sent to anyone outside the set
    and nothing but the message of this broadcast is sent. *)
Theorem C9_broadcast_removes_only_failed_sends :
  forall sockets now clients type data h,
    h ∈ clients ->
    let o := Fanout.broadcast sockets now clients type data in
    let message :=
      {| Fanout.msgType := type; Fanout.msgData := data;
         Fanout.msgTimestamp := now |} in
    (In (h, message) (Fanout.sent o) <->
       Fanout.isOpen sockets h = true /\ Fanout.throws sockets h = false) /\
    (h ∈ Fanout.connectedClients o <->
       ~ (Fanout.isOpen sockets h = true /\ Fanout.throws sockets h = true)) /\
    (h ∈ Fanout.sweep sockets (Fanout.connectedClients o) <->
       Fanout.isOpen sockets h = true /\ Fanout.throws sockets h = false) /\
    (forall h' m, In (h', m) (Fanout.sent o) -> h' ∈ clients /\ m = message).
Proof.
  intros sockets now clients type data h Hh o message.
  assert (forall x, x ∈ Fanout.connectedClients o <->
            x ∈ clients /\
            ~ (Fanout.isOpen sockets x = true /\ Fanout.throws sockets x = true))
    as Hset.
  { intros x. subst o. unfold Fanout.broadcast.
    rewrite visit_fold_clients. simpl. rewrite In_elements. tauto. }
  assert (forall x m, In (x, m) (Fanout.sent o) <->
            m = message /\ x ∈ clients /\
            Fanout.isOpen sockets x = true /\ Fanout.throws sockets x = false)
    as Hsent.
  { intros x m. subst o. unfold Fanout.broadcast.
    rewrite visit_fold_sent. simpl. rewrite In_elements. tauto. }
  split; [rewrite Hsent; tauto|].
  split; [rewrite Hset; tauto|].
  split.
  - unfold Fanout.sweep. rewrite sweep_fold, In_elements, Hset.
    destruct (Fanout.isOpen sockets h), (Fanout.throws sockets h);
      intuition congruence.
  - intros h' m Hin. apply Hsent in Hin. tauto.
Qed.

Lemma C9_witness :
  let o := Fanout.broadcast Sample.sockets Sample.t0 Sample.clients
             "status_updated" [] in
  0%nat ∈ Sample.clients /\
  In (0%nat, {| Fanout.msgType := "status_updated"; Fanout.msgData := [];
                Fanout.msgTimestamp := Sample.t0 |}) (Fanout.sent o).
Proof.
  assert (0%nat ∈ Sample.clients) as Hin by (unfold Sample.clients; set_solver).
  split; [exact Hin|].
  apply (proj1 (C9_broadcast_removes_only_failed_sends
                  Sample.sockets Sample.t0 Sample.clients "status_updated" []
                  0%nat Hin)).
  split; reflexivity.
Defined.

(** C9, as the claim states it, fails: of three subscribers the second
    has a closed connection; the broadcast reaches the first, drops the
    third, whose [send] throws, and leaves the second in the set. *)
Lemma C9_counterexample_closed_subscriber_stays :
  let o := Fanout.broadcast Sample.sockets Sample.t0 Sample.clients
             "status_updated" [] in
  1%nat ∈ Sample.clients /\
  Fanout.isOpen Sample.sockets 1%nat = false /\
  Fanout.connectedClients o = {[ 0%nat; 1%nat ]} /\
  1%nat ∈ Fanout.connectedClients o /\
  List.map fst (Fanout.sent o) = [0%nat].
Proof.
  intros o.
  assert (Fanout.connectedClients o = {[ 0%nat; 1%nat ]}) as Hset
    by (vm_compute; reflexivity).
  split; [unfold Sample.clients; set_solver|].
  split; [reflexivity|].
  split; [exact Hset|].
  split; [rewrite Hset; set_solver|].
  vm_compute. reflexivity.
Qed.

(** ** Further properties of the journey service *)

(** X1.  [extractRegionFromAddress] answers ['Unknown'] exactly for a
    missing or empty address; for any other address it answers one of
    the seven cities or ['Other']. *)
Theorem extractRegionFromAddress_range :
  forall address,
    (JS.truthy address = false -> extractRegionFromAddress address = "Unknown") /\
    (JS.truthy address = true ->
     In (extractRegionFromAddress address)
        ["Mumbai"; "Delhi"; "Bangalore"; "Chennai"; "Hyderabad"; "Pune";
         "Kolkata"; "Other"]).
Proof.
  intros address. unfold extractRegionFromAddress. split.
  - intros ->. reflexivity.
  - intros ->. cbn [negb List.find fst snd majorCities].
    repeat match goal with
           | |- context [JS.includes ?s ?p] => destruct (JS.includes s p)
           end; simpl; auto 12.
Qed.

Lemma getLocationMultiplier_cases r :
  In (getLocationMultiplier r) [1%Q; (11 # 10)%Q; (12 # 10)%Q; (15 # 10)%Q].
Proof.
  unfold getLocationMultiplier, tierMultipliers. cbn [List.find fst snd].
  repeat match goal with
         | |- context [String.eqb ?s r] => destruct (String.eqb s r)
         end; simpl; auto 8.
Qed.

Lemma Qfloor_add_Z h x : Qfloor (inject_Z h + x) = h + Qfloor x.
Proof.
  destruct x as [a b]. unfold Qfloor, Qplus, inject_Z. simpl.
  rewrite Z.mul_1_r. rewrite Z.div_add_l by lia. reflexivity.
Qed.

Lemma addLocalHours_fixed_offset tz c t x :
  (forall u, offsetAtUTC tz u = c) -> (forall u, offsetAtLocal tz u = c) ->
  (0 <= x)%Q ->
  addLocalHours tz t x = t + Qfloor x * 3600000.
Proof.
  intros Hu Hl Hx. unfold addLocalHours. rewrite Hu, Hl.
  set (h := ((t + c) / 3600000) mod 24).
  assert (0 <= h) as Hh by (apply Z.mod_pos_bound; lia).
  unfold truncate.
  assert (Qle_bool 0 (inject_Z h + x) = true) as ->.
  { apply Qle_bool_iff. replace 0%Q with (0 + 0)%Q by reflexivity.
    apply Qplus_le_compat; [|done]. unfold Qle. simpl. lia. }
  rewrite Qfloor_add_Z. lia.
Qed.

(** X2.  On a server whose offset from UTC does not change, the
    estimated delivery lies a whole number of hours after the request:
    48 to 72 hours for URGENT, 72 to 108 hours for EXPRESS and 96 to 144
    hours for every other priority, whatever the address. *)
Theorem calculateEstimatedDelivery_window :
  forall tz offset now priority address,
    (forall t, offsetAtUTC tz t = offset) ->
    (forall t, offsetAtLocal tz t = offset) ->
    let eta := calculateEstimatedDelivery tz now priority address - now in
    eta mod 3600000 = 0 /\
    (priority = "URGENT" -> 48 * 3600000 <= eta <= 72 * 3600000) /\
    (priority = "EXPRESS" -> 72 * 3600000 <= eta <= 108 * 3600000) /\
    (priority <> "URGENT" -> priority <> "EXPRESS" ->
     96 * 3600000 <= eta <= 144 * 3600000).
Proof.
  intros tz offset now priority address Hu Hl eta. subst eta.
  unfold calculateEstimatedDelivery.
  destruct (String.eqb_spec priority "EXPRESS") as [->|HE];
    [|destruct (String.eqb_spec priority "URGENT") as [->|HU]];
    pose proof (getLocationMultiplier_cases (extractRegionFromAddress address)) as Hm;
    simpl in Hm;
    destruct Hm as [<-|[<-|[<-|[<-|[]]]]];
    rewrite (addLocalHours_fixed_offset tz offset) by (done || (vm_compute; discriminate));
    match goal with
    | |- context [Qfloor ?q] =>
        let v := eval vm_compute in (Qfloor q) in
        change (Qfloor q) with v
    end;
    (split; [|split; [|split]]);
    try (intros; first [discriminate | congruence | lia]);
    match goal with
    | |- (now + ?k * 3600000 - now) mod _ = 0 =>
        replace (now + k * 3600000 - now) with (k * 3600000) by lia;
        apply Z.mod_mul; lia
    end.
Qed.

Lemma calculateEstimatedDelivery_window_witness :
  calculateEstimatedDelivery Sample.utc Sample.t0 "EXPRESS" (Some "Pune, Maharashtra")
    - Sample.t0 = 86 * 3600000 /\
  72 * 3600000
    <= calculateEstimatedDelivery Sample.utc Sample.t0 "EXPRESS" (Some "Pune, Maharashtra")
       - Sample.t0
    <= 108 * 3600000.
Proof.
  split; [reflexivity|].
  exact (proj1 (proj2 (proj2 (calculateEstimatedDelivery_window Sample.utc 0
           Sample.t0 "EXPRESS" (Some "Pune, Maharashtra")
           (fun _ => eq_refl) (fun _ => eq_refl)))) eq_refl).
Defined.

Lemma updateCardStatus_Ok decrypt now w cardId' statusData w' out :
  updateCardStatus decrypt now w cardId' statusData = (w', Ok out) ->
  exists doc status source,
    sd_status statusData = Some status /\ sd_source statusData = Some source /\
    db w !! cardId' = Some doc /\
    let newEvent := newEventOf now doc status source statusData in
    let doc' := applyUpdateData now doc status newEvent (sd_failureReason statusData) in
    db w' = <[cardId' := doc']> (db w) /\
    exists broadcastData smsData,
      effects w' = effects w ++
        [ Broadcast "status_updated" broadcastData;
          SendSMS (customerId doc) "CARD_STATUS_UPDATE" smsData ]
        ++ (if JS.includes status "FAILED" || gt480 (durationMinutes newEvent)
            then [TriggerAnalysis] else []).
Proof.
  unfold updateCardStatus.
  destruct (sd_status statusData) as [status|] eqn:Hst; simpl; [|discriminate].
  destruct (sd_source statusData) as [source|] eqn:Hso; simpl;
    [|rewrite orb_true_r; discriminate].
  destruct (negb (negb (String.eqb status "")) || negb (negb (String.eqb source "")));
    [discriminate|].
  destruct (db w !! cardId') as [doc|] eqn:Hdb; [|discriminate].
  intros [= <- _]. exists doc, status, source. simpl.
  repeat split; try done. eexists _, _. reflexivity.
Qed.

(** X3.  A successful [updateCardStatus] touches one card only: every
    other stored journey is the same afterwards, and on the card itself
    the identity, the customer data, the priority, the estimate, the
    metadata and the creation time are kept, while [updatedAt] becomes
    the time of the call. *)
Theorem updateCardStatus_frame :
  forall decrypt now w cardId' statusData w' out,
    updateCardStatus decrypt now w cardId' statusData = (w', Ok out) ->
    (forall k, k <> cardId' -> db w' !! k = db w !! k) /\
    exists doc doc',
      db w !! cardId' = Some doc /\ db w' !! cardId' = Some doc' /\
      cardId doc' = cardId doc /\ customerId doc' = customerId doc /\
      customerName doc' = customerName doc /\
      mobileNumber doc' = mobileNumber doc /\ address doc' = address doc /\
      panMasked doc' = panMasked doc /\ applicationId doc' = applicationId doc /\
      priority doc' = priority doc /\
      estimatedDelivery doc' = estimatedDelivery doc /\
      metadata doc' = metadata doc /\ createdAt doc' = createdAt doc /\
      updatedAt doc' = now.
Proof.
  intros decrypt now w id sd w' out H.
  apply updateCardStatus_Ok in H as (doc & status & source & _ & _ & Hdb & Hdb' & _).
  split.
  - intros k Hk. rewrite Hdb'. by apply lookup_insert_ne.
  - eexists doc, _. split; [done|]. split; [rewrite Hdb'; apply lookup_insert_eq|].
    simpl. repeat split.
Qed.

Lemma Sample_world2_step :
  updateCardStatus Sample.decrypt (Sample.t0 + Sample.hours 50) Sample.world1
    "CRD001234" (Sample.statusTo "DELIVERED" None)
  = (Sample.world2,
     Ok (sanitizeCardData Sample.decrypt
           (applyUpdateData (Sample.t0 + Sample.hours 50) Sample.fresh "DELIVERED"
              (newEventOf (Sample.t0 + Sample.hours 50) Sample.fresh "DELIVERED"
                 "delivery_partner" (Sample.statusTo "DELIVERED" None))
              None))).
Proof. reflexivity. Qed.

Lemma updateCardStatus_frame_witness :
  forall k, k <> "CRD001234" -> db Sample.world2 !! k = db Sample.world1 !! k.
Proof.
  exact (proj1 (updateCardStatus_frame _ _ _ _ _ _ _ Sample_world2_step)).
Defined.

Lemma continues_refl j : continues j j.
Proof.
  split; [done|]. split; [done|]. split; [|split; [lia | done]].
  exists []. by rewrite List.app_nil_r.
Qed.

Lemma continues_trans j1 j2 j3 : continues j1 j2 -> continues j2 j3 -> continues j1 j3.
Proof.
  intros (Hc1 & Ht1 & [n1 Hn1] & Hr1 & Hf1) (Hc2 & Ht2 & [n2 Hn2] & Hr2 & Hf2).
  split; [congruence|]. split; [congruence|].
  split; [|split; [lia | tauto]].
  exists (n1 ++ n2). rewrite Hn2, Hn1. by rewrite List.app_assoc.
Qed.

Lemma continues_update now doc status newEvent reason :
  continues doc (applyUpdateData now doc status newEvent reason).
Proof.
  split; [done|]. split; [done|]. split; [|split]; simpl.
  - by exists [newEvent].
  - destruct (JS.truthy reason); lia.
  - intros H. by destruct (JS.truthy reason) eqn:E.
Qed.

(** X4.  Over any run of successful service calls a stored journey is
    only ever continued: the card stays in the store under its key, the
    events recorded so far stay where they are and new ones come after
    them, [retryCount] never decreases, and a failure reason, once set,
    is never cleared. *)
Theorem journeys_are_append_only :
  forall tz encrypt decrypt w w',
    rtc (ServiceStep tz encrypt decrypt) w w' ->
    forall k j, db w !! k = Some j ->
                exists j', db w' !! k = Some j' /\ continues j j'.
Proof.
  intros tz encrypt decrypt w w' Hrun.
  induction Hrun as [w|w w1 w2 Hstep _ IH]; intros k j Hk.
  - exists j. split; [done | apply continues_refl].
  - assert (exists j1, db w1 !! k = Some j1 /\ continues j j1) as (j1 & Hk1 & Hc1).
    { destruct Hstep as [now w cd w1 out H | now w id sd w1 out H].
      - destruct (createCard_fails tz encrypt decrypt now w cd) as [e He].
        rewrite He in H. discriminate.
      - apply updateCardStatus_Ok in H
          as (doc & status & source & _ & _ & Hdb & Hdb' & _).
        destruct (decide (id = k)) as [->|Hne].
        + eexists. split; [rewrite Hdb'; apply lookup_insert_eq|].
          rewrite Hk in Hdb. injection Hdb as <-. apply continues_update.
        + exists j. split; [|apply continues_refl].
          rewrite Hdb'. by rewrite lookup_insert_ne. }
    destruct (IH k j1 Hk1) as (j' & Hk' & Hc').
    exists j'. split; [done|]. by eapply continues_trans.
Qed.

Lemma journeys_are_append_only_witness :
  exists j', db Sample.world2 !! "CRD001234" = Some j' /\ continues Sample.fresh j'.
Proof.
  exact (journeys_are_append_only Sample.utc Sample.encrypt Sample.decrypt
           Sample.world1 Sample.world2 Sample_world1_to_world2
           "CRD001234" Sample.fresh eq_refl).
Defined.

Lemma Math_round_div a p :
  JS.Math_round (inject_Z a / inject_Z (Z.pos p)) = (2 * a + Z.pos p) / (2 * Z.pos p).
Proof.
  unfold JS.Math_round, Qfloor, Qdiv, Qmult, Qplus, Qinv, inject_Z. simpl.
  f_equal; lia.
Qed.

Lemma round_div_bounds a b :
  0 < b ->
  let r := (2 * a + b) / (2 * b) in
  - b < 2 * (b * r - a) <= b.
Proof.
  intros Hb r.
  pose proof (Z.div_mod (2 * a + b) (2 * b) ltac:(lia)) as Hdm.
  pose proof (Z.mod_pos_bound (2 * a + b) (2 * b) ltac:(lia)) as Hm.
  fold r in Hdm. nia.
Qed.

(** X5.  When a card that has events is advanced, the duration written
    on the new event is the time since the previous event in minutes,
    off by at most half a minute (a tie is rounded up), and it is not
    negative when the clock has not gone back. *)
Theorem updateCardStatus_duration_is_elapsed_minutes :
  forall decrypt now w cardId' statusData w' out doc previous,
    updateCardStatus decrypt now w cardId' statusData = (w', Ok out) ->
    db w !! cardId' = Some doc ->
    last_event doc = Some previous ->
    exists doc' e d,
      db w' !! cardId' = Some doc' /\ last_event doc' = Some e /\
      durationMinutes e = Some d /\
      - 30000 < 60000 * d - (now - timestamp previous) <= 30000 /\
      (timestamp previous <= now -> 0 <= d).
Proof.
  intros decrypt now w id sd w' out doc previous H Hdoc Hlast.
  apply updateCardStatus_Ok in H as (doc0 & status & source & _ & _ & Hdb & Hdb' & _).
  rewrite Hdoc in Hdb. injection Hdb as <-.
  eexists _, _, _. split; [rewrite Hdb'; apply lookup_insert_eq|].
  split; [eapply last_event_app; reflexivity|].
  simpl. rewrite Hlast. split; [reflexivity|].
  change (1000 * 60) with 60000. rewrite Math_round_div.
  pose proof (round_div_bounds (now - timestamp previous) 60000 ltac:(lia)) as Hb.
  simpl in Hb. split; [lia|].
  intros Hle. apply Z.div_pos; lia.
Qed.

Lemma updateCardStatus_duration_witness :
  exists doc' e d,
    db Sample.world2 !! "CRD001234" = Some doc' /\ last_event doc' = Some e /\
    durationMinutes e = Some d /\
    - 30000 < 60000 * d - (Sample.t0 + Sample.hours 50 - Sample.t0) <= 30000 /\
    (Sample.t0 <= Sample.t0 + Sample.hours 50 -> 0 <= d).
Proof.
  exact (updateCardStatus_duration_is_elapsed_minutes _ _ _ _ _ _ _
           Sample.fresh _ Sample_world2_step eq_refl eq_refl).
Defined.

Lemma gt480_round a :
  gt480 (Some (JS.Math_round (inject_Z a / inject_Z (1000 * 60))))
  = (28830000 <=? a).
Proof.
  change (1000 * 60) with 60000. rewrite Math_round_div. unfold gt480.
  pose proof (Z.div_mod (2 * a + 60000) (2 * 60000) ltac:(lia)) as Hdm.
  pose proof (Z.mod_pos_bound (2 * a + 60000) (2 * 60000) ltac:(lia)) as Hm.
  destruct (Z.ltb_spec 480 ((2 * a + 60000) / (2 * 60000)));
    destruct (Z.leb_spec 28830000 a); try reflexivity; lia.
Qed.

(** X6.  A successful [updateCardStatus] on a card that has events
    broadcasts the change, then requests the SMS, and schedules a
    bottleneck analysis exactly when the target status contains FAILED
    or at least 480.5 minutes (28,830,000 ms) have passed since the
    previous event; it adds nothing else to the effects. *)
Theorem updateCardStatus_effects :
  forall decrypt now w cardId' statusData w' out doc previous,
    updateCardStatus decrypt now w cardId' statusData = (w', Ok out) ->
    db w !! cardId' = Some doc ->
    last_event doc = Some previous ->
    exists status broadcastData smsData,
      sd_status statusData = Some status /\
      effects w' = effects w ++
        [ Broadcast "status_updated" broadcastData;
          SendSMS (customerId doc) "CARD_STATUS_UPDATE" smsData ]
        ++ (if JS.includes status "FAILED"
               || (28830000 <=? now - timestamp previous)
            then [TriggerAnalysis] else []).
Proof.
  intros decrypt now w id sd w' out doc previous H Hdoc Hlast.
  apply updateCardStatus_Ok in H
    as (doc0 & status & source & Hst & _ & Hdb & _ & b & s & Heff).
  rewrite Hdoc in Hdb. injection Hdb as <-.
  exists status, b, s. split; [done|]. rewrite Heff.
  simpl durationMinutes. rewrite Hlast. by rewrite gt480_round.
Qed.

Lemma updateCardStatus_effects_witness :
  exists status broadcastData smsData,
    sd_status (Sample.statusTo "DELIVERED" None) = Some status /\
    effects Sample.world2 = effects Sample.world1 ++
      [ Broadcast "status_updated" broadcastData;
        SendSMS (customerId Sample.fresh) "CARD_STATUS_UPDATE" smsData ]
      ++ (if JS.includes status "FAILED"
             || (28830000 <=? Sample.t0 + Sample.hours 50 - Sample.t0)
          then [TriggerAnalysis] else []).
Proof.
  exact (updateCardStatus_effects _ _ _ _ _ _ _ Sample.fresh _
           Sample_world2_step eq_refl eq_refl).
Defined.

(** X7.  Every successful [updateCardStatus] to DELIVERED stamps
    [actualDelivery] with the time of the call (also on a card that was
    delivered before), and the virtual [totalDurationHours] is then the
    time since creation in hours, off by at most half an hour; an
    update to any other status leaves [actualDelivery] as it was. *)
Theorem updateCardStatus_stamps_delivery :
  forall decrypt now w cardId' statusData w' out doc,
    updateCardStatus decrypt now w cardId' statusData = (w', Ok out) ->
    db w !! cardId' = Some doc ->
    exists doc',
      db w' !! cardId' = Some doc' /\
      (sd_status statusData = Some "DELIVERED" ->
       actualDelivery doc' = Some now /\
       exists h, totalDurationHours doc' = Some h /\
                 - 1800000 < 3600000 * h - (now - createdAt doc) <= 1800000) /\
      (sd_status statusData <> Some "DELIVERED" ->
       actualDelivery doc' = actualDelivery doc /\
       totalDurationHours doc' = totalDurationHours doc).
Proof.
  intros decrypt now w id sd w' out doc H Hdoc.
  apply updateCardStatus_Ok in H as (doc0 & status & source & Hst & _ & Hdb & Hdb' & _).
  rewrite Hdoc in Hdb. injection Hdb as <-.
  eexists. split; [rewrite Hdb'; apply lookup_insert_eq|].
  unfold totalDurationHours. simpl. split.
  - intros Hd. rewrite Hst in Hd. injection Hd as ->. simpl.
    split; [reflexivity|]. eexists. split; [reflexivity|].
    change (1000 * 60 * 60) with 3600000. rewrite Math_round_div.
    pose proof (round_div_bounds (now - createdAt doc) 3600000 ltac:(lia)) as Hb.
    simpl in Hb. lia.
  - intros Hd. destruct (String.eqb_spec status "DELIVERED") as [->|Hne];
      [congruence | done].
Qed.

Lemma updateCardStatus_stamps_delivery_witness :
  exists doc',
    db Sample.world2 !! "CRD001234" = Some doc' /\
    actualDelivery doc' = Some (Sample.t0 + Sample.hours 50) /\
    totalDurationHours doc' = Some 50.
Proof.
  destruct (updateCardStatus_stamps_delivery _ _ _ _ _ _ _ Sample.fresh
              Sample_world2_step eq_refl) as (doc' & Hdb & Hdel & _).
  exists doc'. split; [exact Hdb|].
  destruct (Hdel eq_refl) as [Ha _]. split; [exact Ha|].
  vm_compute in Hdb. injection Hdb as <-. reflexivity.
Defined.

(** X8.  The assignments of [addJourneyEvent] append exactly the given
    event, make its stage the current status and so keep the status equal
    to the stage of the last event; they never change [retryCount], so
    recording an event that carries a failure reason this way leaves the
    counter one short of the events that carry a reason. *)
Theorem addJourneyEvent_keeps_status_not_retries :
  forall now doc eventData',
    let doc' := addJourneyEvent now doc eventData' in
    statusIsLastStage doc' /\
    continues doc doc' /\
    (exists e, journey doc' = journey doc ++ [e] /\ stage e = ei_stage eventData'
               /\ timestamp e = default now (ei_timestamp eventData')) /\
    retryCount doc' = retryCount doc /\
    (retryCountsReasons doc ->
     (retryCountsReasons doc' <-> JS.truthy (ei_failureReason eventData') = false)).
Proof.
  intros now doc ev doc'. split; [|split; [|split; [|split]]].
  - split.
    + simpl. intros H. apply List.app_eq_nil in H as [_ H]. discriminate.
    + erewrite last_event_app by reflexivity. reflexivity.
  - split; [done|]. split; [done|]. split; [|split]; simpl.
    + eexists. reflexivity.
    + lia.
    + intros H. by destruct (JS.truthy (ei_failureReason ev)) eqn:E.
  - eexists. split; [reflexivity|]. split; reflexivity.
  - reflexivity.
  - unfold retryCountsReasons, countEvents. intros Hdoc. simpl.
    rewrite List.filter_app, List.length_app. simpl.
    destruct (JS.truthy (ei_failureReason ev)); simpl; split; intros H;
      try done; lia.
Qed.

(** ** Properties of the listings *)

Lemma In_insertOldest x j l : In x (insertOldest j l) <-> x = j \/ In x l.
Proof.
  induction l as [|y t IH]; simpl.
  - intuition.
  - destruct (createdAt j <? createdAt y); simpl; [intuition|].
    rewrite IH. intuition.
Qed.

Lemma In_sortOldestFirst x l : In x (sortOldestFirst l) <-> In x l.
Proof.
  induction l as [|y t IH]; simpl; [tauto|].
  rewrite In_insertOldest, IH. intuition.
Qed.

Lemma Sorted_insertOldest j l :
  Sorted (fun a b => createdAt a <= createdAt b) l ->
  Sorted (fun a b => createdAt a <= createdAt b) (insertOldest j l).
Proof.
  induction l as [|y t IH]; intros Hs; simpl.
  - repeat constructor.
  - destruct (Z.ltb_spec (createdAt j) (createdAt y)) as [Hlt|Hge].
    + constructor; [done|]. constructor. lia.
    + inversion Hs as [|? ? Hst Hhd]; subst. constructor; [by apply IH|].
      destruct t as [|z t']; simpl.
      * constructor. lia.
      * destruct (createdAt j <? createdAt z); constructor; [lia|].
        by inversion Hhd.
Qed.

Lemma Sorted_sortOldestFirst l :
  Sorted (fun a b => createdAt a <= createdAt b) (sortOldestFirst l).
Proof.
  induction l as [|y t IH]; simpl; [constructor|]. by apply Sorted_insertOldest.
Qed.

Lemma in_enum_false s enum : in_enum s enum = false <-> ~ In s enum.
Proof.
  unfold in_enum. induction enum as [|x t IH]; simpl; [tauto|].
  rewrite orb_false_iff, IH.
  destruct (String.eqb_spec s x); intuition congruence.
Qed.

(** X9.  [getDelayedCards] returns, oldest first, exactly the stored
    journeys created before the threshold date whose status is none of
    DELIVERED, DESTROYED and RETURNED; on a server whose offset from UTC
    does not change, the threshold date is the given number of hours
    before the call. *)
Theorem getDelayedCards_oldest_open_cards :
  forall tz now w thresholdHours,
    let delayed := getDelayedCards tz now w thresholdHours in
    let thresholdDate := addLocalHours tz now (inject_Z (- thresholdHours)) in
    (forall j,
        In j delayed <->
        (exists k, db w !! k = Some j) /\
        createdAt j < thresholdDate /\
        currentStatus j <> "DELIVERED" /\ currentStatus j <> "DESTROYED" /\
        currentStatus j <> "RETURNED") /\
    Sorted (fun a b => createdAt a <= createdAt b) delayed /\
    (forall offset,
        (forall t, offsetAtUTC tz t = offset) ->
        (forall t, offsetAtLocal tz t = offset) ->
        thresholdDate = now - thresholdHours * 3600000).
Proof.
  intros tz now w h delayed thresholdDate. subst delayed thresholdDate.
  unfold getDelayedCards. split; [|split].
  - intros j. rewrite In_sortOldestFirst, List.filter_In, In_documents.
    rewrite andb_true_iff, Z.ltb_lt, negb_true_iff, in_enum_false. simpl.
    intuition.
  - apply Sorted_sortOldestFirst.
  - intros offset Hu Hl. unfold addLocalHours. rewrite Hu, Hl.
    set (g := ((now + offset) / 3600000) mod 24).
    assert (truncate (inject_Z g + inject_Z (- h)) = g - h) as ->.
    { unfold truncate.
      assert ((inject_Z g + inject_Z (- h) == inject_Z (g - h))%Q) as Heq
        by (rewrite <- inject_Z_plus; reflexivity).
      destruct (Qle_bool 0 (inject_Z g + inject_Z (- h))).
      - rewrite (Qfloor_comp _ _ Heq). apply Qfloor_Z.
      - rewrite (Qceiling_comp _ _ Heq). apply Qceiling_Z. }
    lia.
Qed.

(** ** Properties of the masking helpers *)

Lemma length_append (a b : string) :
  String.length (a +:+ b) = (String.length a + String.length b)%nat.
Proof.
  induction a as [|c t IH]; [reflexivity|].
  change (String c t +:+ b) with (String c (t +:+ b)). simpl. congruence.
Qed.

Lemma substring_length_exact s : forall k m,
  (k + m <= String.length s)%nat -> String.length (String.substring k m s) = m.
Proof.
  induction s as [|c t IH]; intros k m H; simpl in H.
  - destruct k, m; simpl; lia.
  - destruct k; [destruct m|]; simpl.
    + reflexivity.
    + f_equal. apply IH. lia.
    + apply IH. lia.
Qed.

Lemma slice_last_split n s :
  (n <= String.length s)%nat ->
  exists hidden, s = hidden +:+ JS.slice_last n s /\
                 String.length (JS.slice_last n s) = n /\
                 String.length hidden = (String.length s - n)%nat.
Proof.
  intros Hn. destruct (slice_last_suffix n s) as [hidden [Hs _]].
  assert (String.length (JS.slice_last n s) = n) as Hlen.
  { unfold JS.slice_last. apply substring_length_exact. lia. }
  exists hidden. split; [done|]. split; [done|].
  apply (f_equal String.length) in Hs. rewrite length_append, Hlen in Hs. lia.
Qed.

Lemma length_stars n : String.length (Encryption.stars n) = n.
Proof. induction n; simpl; congruence. Qed.

(** X11.  [maskData] hands a text of at most [visibleChars] characters
    back unmasked.  A longer text keeps its length: its last
    [visibleChars] characters are shown and every character before them
    is replaced by a star.  With [visibleChars = 0] the stars are followed
    by the whole text, because [text.slice(-0)] is the text itself. *)
Theorem maskData_shape :
  forall t visibleChars,
    ((String.length t <= visibleChars)%nat ->
     Encryption.maskData (Some t) visibleChars = Some t) /\
    ((0 < visibleChars < String.length t)%nat ->
     exists hidden shown,
       t = hidden +:+ shown /\ String.length shown = visibleChars /\
       Encryption.maskData (Some t) visibleChars
       = Some (Encryption.stars (String.length hidden) +:+ shown)) /\
    ((0 < String.length t)%nat ->
     Encryption.maskData (Some t) 0
     = Some (Encryption.stars (String.length t) +:+ t)).
Proof.
  intros t v. unfold Encryption.maskData. split; [|split].
  - intros Hle. apply Nat.leb_le in Hle. rewrite Hle, orb_true_r. reflexivity.
  - intros [Hv Hlt].
    assert (JS.truthy (Some t) = true) as -> by (destruct t; [simpl in Hlt; lia | done]).
    assert ((String.length t <=? v)%nat = false) as -> by (apply Nat.leb_gt; lia).
    simpl. destruct (slice_last_split v t ltac:(lia)) as (hidden & Ht & Hs & Hh).
    exists hidden, (JS.slice_last v t). split; [done|]. split; [done|].
    rewrite Hh. destruct v; [lia | reflexivity].
  - intros Hlt.
    assert (JS.truthy (Some t) = true) as -> by (destruct t; [simpl in Hlt; lia | done]).
    assert ((String.length t <=? 0)%nat = false) as -> by (apply Nat.leb_gt; lia).
    simpl. by rewrite Nat.sub_0_r.
Qed.

Lemma maskData_shape_witness :
  exists hidden shown,
    "9876543210" = hidden +:+ shown /\ String.length shown = 4%nat /\
    Encryption.maskData (Some "9876543210") 4
    = Some (Encryption.stars (String.length hidden) +:+ shown).
Proof.
  apply (proj1 (proj2 (maskData_shape "9876543210" 4))). simpl. lia.
Defined.

Lemma includes_star_head s : JS.includes (String "*" s) "*" = true.
Proof.
  cbn [JS.includes String.prefix].
  destruct (ascii_dec "*" "*") as [_|Hne]; [by destruct s | by destruct Hne].
Qed.

Lemma includes_append_r a s p : JS.includes s p = true -> JS.includes (a +:+ s) p = true.
Proof.
  intros H. induction a as [|c t IH]; [done|].
  change (String c t +:+ s) with (String c (t +:+ s)).
  cbn [JS.includes]. rewrite IH. by destruct (String.prefix p (String c (t +:+ s))).
Qed.

Lemma length_keep p s : (String.length (Encryption.keep p s) <= String.length s)%nat.
Proof. induction s as [|c t IH]; simpl; [lia|]. destruct (p c); simpl; lia. Qed.

Lemma maskData_hides t v :
  (v < String.length t)%nat ->
  exists r, Encryption.maskData (Some t) v = Some r /\ JS.includes r "*" = true.
Proof.
  intros Hlt. unfold Encryption.maskData.
  assert (JS.truthy (Some t) = true) as -> by (destruct t; [simpl in Hlt; lia | done]).
  assert ((String.length t <=? v)%nat = false) as -> by (apply Nat.leb_gt; lia).
  simpl. eexists. split; [reflexivity|].
  destruct (String.length t - v)%nat eqn:E; [lia|]. apply includes_star_head.
Qed.

(** X12.  [maskMobile] and [maskPAN] return nothing for a missing value.
    A mobile number of five characters or more, and a PAN of three
    characters or more, always comes back with at least one star; a
    mobile number of up to four characters and a PAN of up to two
    characters comes back as it is. *)
Theorem maskMobile_maskPAN_hide_long_values :
  forall v,
    Encryption.maskMobile None = None /\ Encryption.maskPAN None = None /\
    ((5 <= String.length v)%nat ->
     exists r, Encryption.maskMobile (Some v) = Some r /\ JS.includes r "*" = true) /\
    ((3 <= String.length v)%nat ->
     exists r, Encryption.maskPAN (Some v) = Some r /\ JS.includes r "*" = true) /\
    ((0 < String.length v <= 4)%nat -> Encryption.maskMobile (Some v) = Some v) /\
    ((0 < String.length v <= 2)%nat -> Encryption.maskPAN (Some v) = Some v).
Proof.
  intros v. split; [reflexivity|]. split; [reflexivity|].
  assert (forall n, (n <= String.length v)%nat -> (0 < n)%nat ->
                    JS.truthy (Some v) = true) as Htr.
  { intros n Hn H0. destruct v; [simpl in Hn; lia | done]. }
  split; [|split; [|split]].
  - intros H5. unfold Encryption.maskMobile.
    rewrite (Htr 5%nat) by lia. simpl.
    destruct (_ =? 10)%nat.
    + eexists. split; [reflexivity|].
      apply includes_append_r, includes_star_head.
    + destruct (_ && _).
      * eexists. split; [reflexivity|]. reflexivity.
      * apply maskData_hides. lia.
  - intros H3. unfold Encryption.maskPAN.
    rewrite (Htr 3%nat) by lia. simpl.
    destruct (_ =? 10)%nat.
    + eexists. split; [reflexivity|].
      apply includes_append_r, includes_star_head.
    + apply maskData_hides. lia.
  - intros [H0 H4]. unfold Encryption.maskMobile.
    rewrite (Htr 1%nat) by lia. simpl.
    pose proof (length_keep JS.is_digit v) as Hk.
    assert ((String.length (Encryption.keep JS.is_digit v) =? 10)%nat = false) as ->
      by (apply Nat.eqb_neq; lia).
    assert ((String.length (Encryption.keep JS.is_digit v) =? 12)%nat = false) as ->
      by (apply Nat.eqb_neq; lia).
    simpl. apply (proj1 (maskData_shape v 4)). lia.
  - intros [H0 H2]. unfold Encryption.maskPAN.
    rewrite (Htr 1%nat) by lia. simpl.
    assert ((String.length v =? 10)%nat = false) as -> by (apply Nat.eqb_neq; lia).
    apply (proj1 (maskData_shape v 2)). lia.
Qed.

Lemma maskMobile_witness :
  exists r, Encryption.maskMobile (Some "+91 98765 43210") = Some r /\
            JS.includes r "*" = true.
Proof.
  apply (proj1 (proj2 (proj2 (maskMobile_maskPAN_hide_long_values "+91 98765 43210")))).
  simpl. lia.
Defined.

Lemma alnum_not_special c : is_alnum c = true -> Encryption.is_special c = false.
Proof.
  destruct c as [[] [] [] [] [] [] [] []]; vm_compute; congruence.
Qed.

(** X13.  [validateKey] rejects every key of fewer than 32 characters
    and every key made of letters and digits only, whatever its length;
    in particular the default key of the module does not pass it. *)
Theorem validateKey_rejects_alphanumeric_keys :
  forall k,
    ((String.length k < 32)%nat -> Encryption.validateKey (Some k) = false) /\
    (JS.forall_chars is_alnum k = true -> Encryption.validateKey (Some k) = false) /\
    Encryption.validateKey (Some Encryption.defaultEncryptionKey) = false.
Proof.
  intros k. unfold Encryption.validateKey. split; [|split].
  - intros Hlt. apply Nat.ltb_lt in Hlt. rewrite Hlt, orb_true_r. reflexivity.
  - intros Hal. destruct (negb _ || _); [reflexivity|].
    assert (Encryption.exists_char Encryption.is_special k = false) as ->.
    { induction k as [|c t IH]; [reflexivity|].
      simpl in *. apply andb_true_iff in Hal as [Hc Ht].
      rewrite (alnum_not_special c Hc). by apply IH. }
    apply andb_false_r.
  - reflexivity.
Qed.

(** ** Properties of the number an SMS is sent to *)

Lemma forall_chars_keep p s : JS.forall_chars p (Encryption.keep p s) = true.
Proof.
  induction s as [|c t IH]; [reflexivity|].
  simpl. destruct (p c) eqn:E; [|done]. simpl. by rewrite E.
Qed.

Lemma keep_all p s : JS.forall_chars p s = true -> Encryption.keep p s = s.
Proof.
  induction s as [|c t IH]; [reflexivity|].
  simpl. intros H. apply andb_true_iff in H as [Hc Ht].
  rewrite Hc. f_equal. by apply IH.
Qed.

Lemma forall_chars_append p a b :
  JS.forall_chars p (a +:+ b) = JS.forall_chars p a && JS.forall_chars p b.
Proof.
  induction a as [|c t IH]; [reflexivity|].
  change (String c t +:+ b) with (String c (t +:+ b)). simpl.
  rewrite IH. apply andb_assoc.
Qed.

Lemma forall_chars_substring p s : forall k m,
  JS.forall_chars p s = true -> JS.forall_chars p (String.substring k m s) = true.
Proof.
  induction s as [|c t IH]; intros k m H.
  - destruct k, m; reflexivity.
  - simpl in H. apply andb_true_iff in H as [Hc Ht].
    destruct k; [destruct m|]; simpl; [done | | by apply IH].
    rewrite Hc. by apply IH.
Qed.

Lemma forall_chars_weaken (p q : ascii -> bool) s :
  (forall c, p c = true -> q c = true) ->
  JS.forall_chars p s = true -> JS.forall_chars q s = true.
Proof.
  intros Hpq. induction s as [|c t IH]; [done|].
  simpl. intros H. apply andb_true_iff in H as [Hc Ht].
  by rewrite (Hpq c Hc), IH.
Qed.

Lemma startsWith_plus91 s : JS.startsWith s "+91" = true -> JS.startsWith s "+" = true.
Proof.
  unfold JS.startsWith. destruct s as [|c t]; [discriminate|].
  cbn [String.prefix]. destruct (ascii_dec "+" c); [|discriminate].
  intros _. by destruct t.
Qed.

Lemma digit_first_not s p c :
  JS.forall_chars JS.is_digit s = true -> JS.is_digit c = false ->
  JS.startsWith s (String c p) = false.
Proof.
  unfold JS.startsWith. destruct s as [|d t]; [reflexivity|].
  simpl JS.forall_chars. intros H Hc. apply andb_true_iff in H as [Hd _].
  cbn [String.prefix]. destruct (ascii_dec c d) as [->|]; [congruence | reflexivity].
Qed.

(** X14.  [formatMobileNumber] gives nothing for a missing or empty
    number.  For any other input the result starts with a plus sign and
    consists of digits and plus signs only, and a number written as ten
    digits becomes +91 followed by those digits. *)
Theorem formatMobileNumber_shape :
  forall mobile,
    (Sms.formatMobileNumber None = None /\ Sms.formatMobileNumber (Some "") = None) /\
    (mobile <> "" ->
     exists r, Sms.formatMobileNumber (Some mobile) = Some r /\
               JS.startsWith r "+" = true /\
               JS.forall_chars Sms.is_digit_or_plus r = true) /\
    (JS.forall_chars JS.is_digit mobile = true -> String.length mobile = 10%nat ->
     Sms.formatMobileNumber (Some mobile) = Some ("+91" +:+ mobile)).
Proof.
  intros mobile. split; [split; reflexivity|]. split.
  - intros Hne. unfold Sms.formatMobileNumber.
    assert (JS.truthy (Some mobile) = true) as -> by (by destruct mobile).
    simpl. set (clean := Encryption.keep Sms.is_digit_or_plus mobile).
    assert (JS.forall_chars Sms.is_digit_or_plus clean = true) as Hclean
      by apply forall_chars_keep.
    destruct (JS.startsWith clean "+91") eqn:H1.
    { eexists. split; [reflexivity|]. split; [by apply startsWith_plus91 | done]. }
    destruct (JS.startsWith clean "91" && _).
    { eexists. split; [reflexivity|]. split; [by destruct clean|].
      by rewrite forall_chars_append, Hclean. }
    destruct (JS.startsWith clean "0" && _).
    { eexists. split; [reflexivity|].
      split; [by destruct (String.substring _ _ _)|].
      rewrite forall_chars_append, forall_chars_substring by done. reflexivity. }
    destruct (_ =? 10)%nat.
    { eexists. split; [reflexivity|]. split; [by destruct clean|].
      by rewrite forall_chars_append, Hclean. }
    destruct (JS.startsWith clean "+") eqn:H5.
    { eexists. split; [reflexivity|]. done. }
    eexists. split; [reflexivity|]. split; [by destruct clean|].
    by rewrite forall_chars_append, Hclean.
  - intros Hd Hlen. unfold Sms.formatMobileNumber.
    assert (JS.truthy (Some mobile) = true) as ->
      by (destruct mobile; [discriminate | done]).
    simpl. rewrite keep_all.
    2:{ eapply forall_chars_weaken; [|exact Hd].
        intros c Hc. unfold Sms.is_digit_or_plus. by rewrite Hc. }
    rewrite (digit_first_not mobile "91" "+") by done.
    rewrite Hlen. simpl.
    destruct (JS.startsWith mobile "91"), (JS.startsWith mobile "0"); reflexivity.
Qed.

Lemma formatMobileNumber_witness :
  Sms.formatMobileNumber (Some "9876543210") = Some "+919876543210".
Proof.
  apply (proj2 (proj2 (formatMobileNumber_shape "9876543210"))); reflexivity.
Defined.
